(** * Portfolio visualisation: the table pipeline of [app/main.py]

    The two functions of [app/main.py] that build tables,
    [format_transactions] and [fetch_hist_data], are embedded as functions
    on lists of rows, one pandas statement per definition.

    Conventions of the embedding.
    - A calendar date is its proleptic Gregorian ordinal
      ([datetime.date.toordinal]), an integer.
    - A numeric table cell is a [cell]: a float64 whose finite values are
      exact rationals (rounding is not modelled, zero is unsigned and
      divides like [+0.0]), with the IEEE special values [PInf], [NInf]
      and [NaN].  [NaN] is pandas' marker of an unavailable value.
    - A column of numbers and [None]s is a float64 column, where [None]
      reads as [NaN], as soon as one record holds a number, as the
      [DataFrame] constructor infers it; a column of [None]s only is a
      column of objects, and its cumulative sum raises [TypeError].
    - The ledger is a [dict] of [dict]s, a [gmap] of [gmap]s: keys are
      unique, and since every record is sorted by its unique
      (ticker, date) key the order of [.items()] is not observable.
    - The two calls to [yf.download] are the only effects; the provider is
      a parameter of the pipeline. *)

From Stdlib Require Import QArith.
From stdpp Require Import gmap strings list sorting.

Local Open Scope Z_scope.

(** ** Cells: float64 values *)

Inductive cell : Type :=
  | Num (q : Q)
  | PInf
  | NInf
  | NaN.

Global Instance Q_eq_dec : EqDecision Q.
Proof. solve_decision. Defined.

Global Instance cell_eq_dec : EqDecision cell.
Proof. solve_decision. Defined.

(** [Series.isna] on one value. *)
Definition isna (c : cell) : bool :=
  match c with NaN => true | _ => false end.

(** Sign of a value that is not [NaN]. *)
Definition cell_sgn (c : cell) : Z :=
  match c with
  | Num q => Z.sgn (Qnum q)
  | PInf => 1
  | NInf => -1
  | NaN => 0
  end.

Definition signed_inf (s : Z) : cell :=
  match s with
  | Z0 => NaN
  | Zpos _ => PInf
  | Zneg _ => NInf
  end.

Definition cell_add (a b : cell) : cell :=
  match a, b with
  | NaN, _ | _, NaN => NaN
  | Num x, Num y => Num (Qred (x + y))
  | PInf, NInf | NInf, PInf => NaN
  | PInf, _ | _, PInf => PInf
  | NInf, _ | _, NInf => NInf
  end.

Definition cell_sub (a b : cell) : cell :=
  match a, b with
  | NaN, _ | _, NaN => NaN
  | Num x, Num y => Num (Qred (x - y))
  | PInf, PInf | NInf, NInf => NaN
  | PInf, _ | _, NInf => PInf
  | NInf, _ | _, PInf => NInf
  end.

Definition cell_mul (a b : cell) : cell :=
  match a, b with
  | NaN, _ | _, NaN => NaN
  | Num x, Num y => Num (Qred (x * y))
  | _, _ => signed_inf (cell_sgn a * cell_sgn b)
  end.

(** Division follows IEEE 754: a finite non-zero value over zero is an
    infinity, zero over zero is [NaN]. *)
Definition cell_div (a b : cell) : cell :=
  match a, b with
  | NaN, _ | _, NaN => NaN
  | Num x, Num y =>
      if decide (Qnum y = 0) then signed_inf (Z.sgn (Qnum x))
      else Num (Qred (x / y))
  | Num _, _ => Num 0
  | _, Num y => signed_inf (cell_sgn a * (if decide (Qnum y < 0) then -1 else 1))
  | _, _ => NaN
  end.

(** [c > 0], false on [NaN]. *)
Definition cell_gt0 (c : cell) : bool :=
  match c with
  | Num q => bool_decide (0 < Qnum q)
  | PInf => true
  | NInf | NaN => false
  end.

(** [s.where(cond, other)] on one value. *)
Definition where_ (cond : bool) (c other : cell) : cell :=
  if cond then c else other.

(** ** The ledger *)

(** A YAML scalar given as a price: a number or a string. *)
Inductive scalar : Type :=
  | SNum (q : Q)
  | SStr (s : string).

(** One attribute record of a transaction: a dict read at the keys
    ['QTE'] and ['PRICE'] only. *)
Record item : Type := Item { QTE : option Q; PRICE : option scalar }.

(** [portfolio]: ticker -> date -> list of attribute records. *)
Abbreviation ledger := (gmap string (gmap Z (list item))).

(** ** Tables *)

(** The records collected by the loop of [format_transactions]. *)
Module Rec.
Record row : Type := Row {
  date : Z;
  ticker : string;
  quantity_flow : option Q;
  price : option cell;
  buy_price_yahoo : cell }.
Definition key (r : row) : string * Z := (ticker r, date r).
End Rec.

(** The frame returned by [format_transactions]. *)
Module Df.
Record row : Type := Row {
  date : Z;
  ticker : string;
  quantity_flow : cell;
  price : cell;
  quantity_stock : cell;
  spending_flow : cell;
  spending_stock : cell;
  invested_cash_flow : cell;
  invested_cash_stock : cell }.
Definition key (r : row) : string * Z := (ticker r, date r).
End Df.

(** [full_df]: the running aggregates on the calendar grid. *)
Module Full.
Record row : Type := Row {
  ticker : string;
  date : Z;
  quantity_stock : cell;
  spending_stock : cell;
  invested_cash_stock : cell }.
Definition key (r : row) : string * Z := (ticker r, date r).
End Full.

(** The stacked close-price table of the provider. *)
Module Px.
Record row : Type := Row { date : Z; ticker : string; close : cell }.
Definition key (r : row) : string * Z := (ticker r, date r).
End Px.

(** [hist_data] as returned by [fetch_hist_data]. *)
Module Hist.
Record row : Type := Row {
  ticker : string;
  date : Z;
  close : cell;
  quantity_stock : cell;
  spending_stock : cell;
  invested_cash_stock : cell;
  valuation : cell;
  balance : cell;
  profit_rate : cell }.
Definition key (r : row) : string * Z := (ticker r, date r).
End Hist.

(** ** Exceptions *)

(** [KeyError]: a column label the frame does not have. [TypeError]: the
    cumulative sum of a column of objects. *)
Inductive exn : Type :=
  | KeyError (label : string)
  | TypeError (column : string).

Inductive result (A : Type) : Type :=
  | Ok (a : A)
  | Raise (e : exn).
Arguments Ok {A} a.
Arguments Raise {A} e.

(** ** Order of [sort_values(by=["ticker", "date"])] *)

Definition key_le (a b : string * Z) : Prop :=
  String.le a.1 b.1 ∧ (a.1 = b.1 → a.2 ≤ b.2).

Global Instance key_le_dec : RelDecision key_le.
Proof. intros a b. unfold key_le. apply _. Defined.

Definition rec_le (r1 r2 : Rec.row) : Prop := key_le (Rec.key r1) (Rec.key r2).

Global Instance rec_le_dec : RelDecision rec_le.
Proof. intros a b. unfold rec_le. apply _. Defined.

(** ** Grouped transforms *)

(** [groupby(key).transform]: one pass over the rows with one state per
    group.  [upd] is the new state of the row's group, [out] the value
    written on the row. *)
Section groupby.
Context {St : Type} (upd : St → cell → St) (out : St → cell → cell).
Context (init : St).

Fixpoint groupby_scan (st : gmap string St) (kv : list (string * cell))
  : list cell :=
  match kv with
  | [] => []
  | (k, v) :: rest =>
      let s := upd (default init (st !! k)) v in
      out s v :: groupby_scan (<[k := s]> st) rest
  end.
End groupby.

(** [groupby("ticker").col.cumsum()]: unavailable values are skipped and
    stay unavailable ([skipna=True]). *)
Definition cumsum_upd (acc v : cell) : cell :=
  if isna v then acc else cell_add acc v.
Definition cumsum_out (acc v : cell) : cell :=
  if isna v then NaN else acc.
Definition groupby_cumsum (kv : list (string * cell)) : list cell :=
  groupby_scan cumsum_upd cumsum_out (Num 0) ∅ kv.

(** [groupby("ticker")[col].ffill()]. *)
Definition ffill_upd (last v : cell) : cell :=
  if isna v then last else v.
Definition groupby_ffill (kv : list (string * cell)) : list cell :=
  groupby_scan ffill_upd (λ s _, s) NaN ∅ kv.

(** [Series.fillna(0)] on one value. *)
Definition fillna0 (c : cell) : cell :=
  if isna c then Num 0 else c.

Global Instance cell_inhabited : Inhabited cell := populate NaN.

(** [Series.unique()]: the distinct values in order of first appearance. *)
Fixpoint unique_from (seen : list string) (l : list string) : list string :=
  match l with
  | [] => []
  | x :: rest =>
      if decide (x ∈ seen) then unique_from seen rest
      else x :: unique_from (x :: seen) rest
  end.
Definition unique (l : list string) : list string := unique_from [] l.

(** [pd.date_range(start, end, freq="D")], both ends included. *)
Definition date_range (start end_ : Z) : list Z := seqZ start (end_ - start + 1).

(** [pd.MultiIndex.from_product([tickers, dates])]. *)
Definition from_product (tickers : list string) (dates : list Z)
  : list (string * Z) :=
  t ← tickers; d ← dates; [(t, d)].

(** 2020-01-01, the hard-coded first day of the history. *)
Definition start_date : Z := 737425.

(** The value of column [col] at label [k] of the frame indexed by
    (ticker, date); [NaN] when the frame has no such label. *)
Definition loc (col : Df.row → cell) (df : list Df.row) (k : string * Z)
  : cell :=
  from_option (λ ir, col ir.2) NaN (list_find (λ r, Df.key r = k) df).

Section pipeline.
(** [pd.to_numeric(s, errors="coerce")] on a string: the number it
    spells, [NaN] when it spells none. *)
Variable to_numeric : string → cell.

(** The single-day lookup of line 30,
    [yf.download(ticker, start=date, end=date + 1)[ticker]["Close"]]:
    [None] when the series is empty, else its first value. *)
Variable yf_close : string → Z → option cell.

(** The provider's stacked daily table (date, ticker, close), as lines
    70-74 shape the answer of the range download. *)
Variable market : list Px.row.

(** [datetime.datetime.today()], as a date. *)
Variable today : Z.

Definition coerce (v : scalar) : cell :=
  match v with
  | SNum q => Num q
  | SStr s => to_numeric s
  end.

(** Line 28: [next((item['QTE'] for item in details if 'QTE' in item), None)]. *)
Fixpoint next_QTE (details : list item) : option Q :=
  match details with
  | [] => None
  | it :: rest =>
      match QTE it with
      | Some q => Some q
      | None => next_QTE rest
      end
  end.

(** Line 29: the first ['PRICE'], through [pd.to_numeric]. *)
Fixpoint next_PRICE (details : list item) : option cell :=
  match details with
  | [] => None
  | it :: rest =>
      match PRICE it with
      | Some v => Some (coerce v)
      | None => next_PRICE rest
      end
  end.

(** Lines 28-39: the record appended for one date of one ticker. *)
Definition record_of (ticker : string) (date : Z) (details : list item)
  : Rec.row :=
  let qte := next_QTE details in
  let price := next_PRICE details in
  let buy_price_yahoo := yf_close ticker date in
  Rec.Row date ticker qte price (default NaN buy_price_yahoo).

(** Lines 25-39: one record per (ticker, date) of the ledger. *)
Definition records (portfolio : ledger) : list Rec.row :=
  '(ticker, transactions) ← map_to_list portfolio;
  '(date, details) ← map_to_list transactions;
  [record_of ticker date details].

(** [details] is the attribute list of ticker [t] at date [d]. *)
Definition entry (p : ledger) (t : string) (d : Z) (details : list item)
  : Prop :=
  ∃ txns, p !! t = Some txns ∧ txns !! d = Some details.


(** Line 45. Keys are unique, no tie is ever broken. *)
Definition sort_values (rs : list Rec.row) : list Rec.row :=
  merge_sort rec_le rs.

(** Line 42: the dtype inferred for a column of the records. [true]
    when every record holds [None] there: the column is a column of
    objects, not of floats. *)
Definition object_dtype {A} (col : Rec.row → option A) (recs : list Rec.row)
  : bool :=
  forallb (λ r, match col r with None => true | Some _ => false end) recs.

(** The [quantity_flow] column of the frame when it is a float64 column:
    [None] reads as [NaN]. *)
Definition quantity_flow_of (r : Rec.row) : cell :=
  from_option Num NaN (Rec.quantity_flow r).

(** Line 49: the [price] column, when it is a float64 column, once the
    missing prices are replaced by [buy_price_yahoo]. *)
Definition price_of (r : Rec.row) : cell :=
  let p := default NaN (Rec.price r) in
  if isna p then Rec.buy_price_yahoo r else p.

(** Lines 49-57 on the sorted records, for float64 columns: the price
    fallback and the running aggregates; columns are aligned on the row
    number. *)
Definition resolve (df : list Rec.row) : list Df.row :=
  let ticker := Rec.ticker <$> df in
  let quantity_flow := quantity_flow_of <$> df in
  let price := price_of <$> df in
  let quantity_stock := groupby_cumsum (zip ticker quantity_flow) in
  let spending_flow := zip_with cell_mul quantity_flow price in
  let spending_stock := groupby_cumsum (zip ticker spending_flow) in
  let invested_cash_flow :=
    zip_with cell_mul
      ((λ q, where_ (cell_gt0 q) q (Num 0)) <$> quantity_flow) price in
  let invested_cash_stock :=
    groupby_cumsum (zip ticker invested_cash_flow) in
  imap (λ i r,
    Df.Row (Rec.date r) (Rec.ticker r)
      (quantity_flow !!! i) (price !!! i) (quantity_stock !!! i)
      (spending_flow !!! i) (spending_stock !!! i)
      (invested_cash_flow !!! i) (invested_cash_stock !!! i)) df.

(** Lines 24-59. A frame built from no record has no column, and
    [sort_values] raises [KeyError] on its first label (line 45). When no
    record holds a quantity, [quantity_flow] is a column of objects and
    its [cumsum] raises [TypeError] (line 51); when no record holds a
    price, [price] stays a column of objects after line 49, so does
    [spending_flow], whose [cumsum] raises [TypeError] (line 53). *)
Definition format_transactions (portfolio : ledger) : result (list Df.row) :=
  match records portfolio with
  | [] => Raise (KeyError "ticker")
  | recs =>
      if object_dtype Rec.quantity_flow recs then
        Raise (TypeError "quantity_flow")
      else if object_dtype Rec.price recs then
        Raise (TypeError "spending_flow")
      else Ok (resolve (sort_values recs))
  end.

(** Lines 66-74: the range download for the ledger's tickers from
    [start] on, stacked to one row per (date, ticker). *)
Definition download (tickers : list string) (start : Z) : list Px.row :=
  filter (λ r, Px.ticker r ∈ tickers ∧ start ≤ Px.date r) market.

(** Lines 78-85. *)
Definition multi_index (df : list Df.row) : list (string * Z) :=
  from_product (unique (Df.ticker <$> df)) (date_range start_date today).

(** Lines 88-89: [set_index(["ticker", "date"]).reindex(multi_index)] on
    one column; a label absent from the frame gives [NaN]. *)
Definition reindex (col : Df.row → cell) (df : list Df.row)
    (idx : list (string * Z)) : list cell :=
  loc col df <$> idx.

(** Lines 82-97: the running aggregates expanded to the calendar grid. *)
Definition full_df (df : list Df.row) : list Full.row :=
  let idx := multi_index df in
  let ticker := fst <$> idx in
  let quantity_stock :=
    fillna0 <$> groupby_ffill (zip ticker (reindex Df.quantity_stock df idx)) in
  let spending_stock :=
    groupby_ffill (zip ticker (reindex Df.spending_stock df idx)) in
  let invested_cash_stock :=
    groupby_ffill (zip ticker (reindex Df.invested_cash_stock df idx)) in
  imap (λ i k,
    Full.Row k.1 k.2 (quantity_stock !!! i) (spending_stock !!! i)
      (invested_cash_stock !!! i)) idx.

(** Lines 100-103: [hist_data.merge(full_df, how='left', on=[...])]. *)
Definition merge_left (hist : list Px.row) (full : list Full.row)
  : list (Px.row * option Full.row) :=
  h ← hist;
  match filter (λ f, Full.key f = Px.key h) full with
  | [] => [(h, None)]
  | ms => (λ f, (h, Some f)) <$> ms
  end.

(** Lines 107-113 on one merged row. *)
Definition derive (hf : Px.row * option Full.row) : Hist.row :=
  let close := Px.close hf.1 in
  let quantity_stock := from_option Full.quantity_stock NaN hf.2 in
  let spending_stock := from_option Full.spending_stock NaN hf.2 in
  let invested_cash_stock := from_option Full.invested_cash_stock NaN hf.2 in
  let valuation := cell_mul quantity_stock close in
  let balance := cell_sub valuation spending_stock in
  let profit_rate := cell_div balance invested_cash_stock in
  Hist.Row (Px.ticker hf.1) (Px.date hf.1) close quantity_stock
    spending_stock invested_cash_stock valuation balance profit_rate.

(** Lines 119-120 on one row. *)
Definition mask (r : Hist.row) : Hist.row :=
  let keep := negb (isna (Hist.close r)) in
  Hist.Row (Hist.ticker r) (Hist.date r) (Hist.close r)
    (Hist.quantity_stock r)
    (where_ keep (Hist.spending_stock r) NaN)
    (where_ keep (Hist.invested_cash_stock r) NaN)
    (Hist.valuation r) (Hist.balance r) (Hist.profit_rate r).

(** Lines 63-121. *)
Definition fetch_hist_data (df : list Df.row) (portfolio : ledger)
  : list Hist.row :=
  let hist_data := download (map_to_list portfolio).*1 start_date in
  mask <$> (derive <$> merge_left hist_data (full_df df)).

(** Lines 126-138: the run of the script. *)
Definition run (portfolio : ledger) : result (list Hist.row) :=
  match format_transactions portfolio with
  | Ok df => Ok (fetch_hist_data df portfolio)
  | Raise e => Raise e
  end.
End pipeline.

(** ** Vocabulary of the properties *)

(** The values a quantity column can hold: a finite number or [NaN]. *)
Definition finite_or_na (c : cell) : Prop :=
  match c with Num _ | NaN => True | PInf | NInf => False end.

(** A finite number in lowest terms, as every computed cell is. *)
Definition reduced (c : cell) : Prop :=
  match c with Num q => Qred q = q | _ => False end.

(** The values of group [k], in row order. *)
Definition group_vals (k : string) (kv : list (string * cell)) : list cell :=
  (filter (λ p, p.1 = k) kv).*2.

(** The [spending_flow] and [invested_cash_flow] of a sorted record
    (lines 52 and 54). *)
Definition spending_flow_of (r : Rec.row) : cell :=
  cell_mul (quantity_flow_of r) (price_of r).

Definition invested_cash_flow_of (r : Rec.row) : cell :=
  cell_mul (where_ (cell_gt0 (quantity_flow_of r)) (quantity_flow_of r) (Num 0))
    (price_of r).

(** The running total of column [g] on row [i]: the fold of [cumsum] over
    the rows of the same ticker among the first [i + 1] rows. *)
Definition running (g : Rec.row → cell) (rs : list Rec.row) (i : nat)
    (r : Rec.row) : cell :=
  cumsum_out
    (foldl cumsum_upd (Num 0)
       (g <$> filter (λ y, Rec.ticker y = Rec.ticker r) (take (S i) rs)))
    (g r).

(** Row [i] of the frame, from record [r] of the sorted records [rs]. *)
Definition resolved (rs : list Rec.row) (i : nat) (r : Rec.row) : Df.row :=
  Df.Row (Rec.date r) (Rec.ticker r) (quantity_flow_of r) (price_of r)
    (running quantity_flow_of rs i r)
    (spending_flow_of r) (running spending_flow_of rs i r)
    (invested_cash_flow_of r) (running invested_cash_flow_of rs i r).

(** The forward fill of the daily values [f] from [start_date] to [d]:
    the last available one, [NaN] when there is none. *)
Definition ffill_to (f : Z → cell) (d : Z) : cell :=
  foldl ffill_upd NaN (f <$> seqZ start_date (d - start_date + 1)).

(** The row of [full_df] at label [(t, d)]. *)
Definition expanded (df : list Df.row) (t : string) (d : Z) : Full.row :=
  Full.Row t d
    (fillna0 (ffill_to (λ d', loc Df.quantity_stock df (t, d')) d))
    (ffill_to (λ d', loc Df.spending_stock df (t, d')) d)
    (ffill_to (λ d', loc Df.invested_cash_stock df (t, d')) d).

(** [t] has a row in the frame. *)
Definition tracked (df : list Df.row) (t : string) : Prop :=
  ∃ r, r ∈ df ∧ Df.ticker r = t.

(** The row of [full_df] that a price row dated [k.2] of ticker [k.1]
    is merged with, if any. *)
Definition grid_row (today : Z) (df : list Df.row) (k : string * Z)
  : option Full.row :=
  if decide (k.1 ∈ Df.ticker <$> df ∧ start_date ≤ k.2 ≤ today)
  then Some (expanded df k.1 k.2) else None.

(** The sum of the available values of a list of cells. *)
Definition nansum (vs : list cell) : Q :=
  foldr (λ v acc, match v with Num q => q + acc | _ => acc end)%Q 0%Q vs.

(** The quantity flows of ticker [t] dated [d] or before. *)
Definition flows_upto (df : list Df.row) (t : string) (d : Z) : list cell :=
  Df.quantity_flow <$> filter (λ r, Df.ticker r = t ∧ Df.date r ≤ d) df.

(** [v] is the forward fill of column [col] for ticker [t] at day [d]:
    the value of the ticker's last row, dated from [start_date] to [d],
    where the column is available, and [NaN] when no row of the ticker
    dated up to [d] has the column available. *)
Definition filled_from (col : Df.row → cell) (df : list Df.row) (t : string)
    (d : Z) (v : cell) : Prop :=
  (∀ r, r ∈ df → Df.ticker r = t → start_date ≤ Df.date r ≤ d →
     col r ≠ NaN →
     (∀ r', r' ∈ df → Df.ticker r' = t → Df.date r < Df.date r' ≤ d →
            col r' = NaN) →
     v = col r) ∧
  ((∀ r, r ∈ df → Df.ticker r = t → Df.date r ≤ d → col r = NaN) →
   v = NaN).

(** The values of column [col] on the rows of ticker [t] dated [d] or
    before. *)
Definition column_upto (col : Df.row → cell) (df : list Df.row) (t : string)
    (d : Z) : list cell :=
  col <$> filter (λ r, Df.ticker r = t ∧ Df.date r ≤ d) df.

(** A price that is unavailable or a finite number not below 0. *)
Definition nonneg_or_na (c : cell) : Prop :=
  match c with
  | Num q => (0 <= q)%Q
  | NaN => True
  | PInf | NInf => False
  end.

(** The row of the frame for record [rec], from the records [F] of its
    ticker alone: the running totals are those of the records of [F]
    dated up to [rec]. *)
Definition row_by_date (F : list Rec.row) (rec : Rec.row) : Df.row :=
  let upto g :=
    cumsum_out
      (foldl cumsum_upd (Num 0)
         (g <$> filter (λ y, Rec.date y ≤ Rec.date rec) F))
      (g rec) in
  Df.Row (Rec.date rec) (Rec.ticker rec) (quantity_flow_of rec) (price_of rec)
    (upto quantity_flow_of)
    (spending_flow_of rec) (upto spending_flow_of)
    (invested_cash_flow_of rec) (upto invested_cash_flow_of).

(** Some entry of the ledger holds a quantity record. *)
Definition has_quantity (p : ledger) : Prop :=
  ∃ t d details it q,
    entry p t d details ∧ it ∈ details ∧ QTE it = Some q.

(** Some entry of the ledger holds a price record. *)
Definition declares_price (p : ledger) : Prop :=
  ∃ t d details it v,
    entry p t d details ∧ it ∈ details ∧ PRICE it = Some v.

(** ** The claims as the specification states them *)

Section claims_as_stated.
Variable to_numeric : string → cell.
Variable yf_close : string → Z → option cell.
Variable market : list Px.row.
Variable today : Z.

(** "A ledger entry without a quantity aborts the run." *)
Definition missing_quantity_is_fatal (p : ledger) : Prop :=
  ∀ t d details,
    entry p t d details → Forall (λ it, QTE it = None) details →
    ∃ e, format_transactions to_numeric yf_close p = Raise e.

(** The sum of all the quantity records of one attribute list. *)
Definition sum_QTE (details : list item) : Q :=
  foldr (λ it acc, default 0%Q (QTE it) + acc)%Q 0%Q details.

(** "Several quantity records of one date are summed." *)
Definition duplicates_are_summed (p : ledger) : Prop :=
  ∀ t d details df r,
    entry p t d details →
    format_transactions to_numeric yf_close p = Ok df →
    r ∈ df → Df.key r = (t, d) →
    ∃ q, Df.quantity_flow r = Num q ∧ (q == sum_QTE details)%Q.

(** "One output row for every tracked ticker and every calendar day." *)
Definition grid_complete (p : ledger) : Prop :=
  ∀ df t d,
    format_transactions to_numeric yf_close p = Ok df →
    tracked df t → start_date ≤ d ≤ today →
    ∃ o, filter (λ o, Hist.key o = (t, d))
           (fetch_hist_data market today df p) = [o].

(** "No profit rate where the invested cash is zero or unavailable." *)
Definition profit_rate_guarded (p : ledger) : Prop :=
  ∀ out o,
    run to_numeric yf_close market today p = Ok out → o ∈ out →
    Hist.invested_cash_stock o = NaN ∨
      (∃ q, Hist.invested_cash_stock o = Num q ∧ Qnum q = 0) →
    Hist.profit_rate o = NaN.

(** "From the first transaction on, the three aggregates of a grid day
    are those of the nearest transaction on or before it." *)
Definition filled_from_nearest (p : ledger) : Prop :=
  ∀ df t d r fr,
    format_transactions to_numeric yf_close p = Ok df →
    r ∈ df → Df.ticker r = t → Df.date r ≤ d →
    (∀ r', r' ∈ df → Df.ticker r' = t → Df.date r' ≤ d →
           Df.date r' ≤ Df.date r) →
    fr ∈ full_df today df → Full.key fr = (t, d) →
    Full.quantity_stock fr = Df.quantity_stock r ∧
    Full.spending_stock fr = Df.spending_stock r ∧
    Full.invested_cash_stock fr = Df.invested_cash_stock r.
End claims_as_stated.

(** ** Concrete ledgers and providers *)

(** 2020-01-02 and the days after it. *)
Definition jan02 : Z := 737426.
Definition jan03 : Z := 737427.
Definition jan04 : Z := 737428.
Definition jan05 : Z := 737429.
Definition jan06 : Z := 737430.

Definition to_numeric_ex (s : string) : cell :=
  if decide (s = "5.0") then Num 5 else NaN.

(** A provider without any single-day quote. *)
Definition no_quote (t : string) (d : Z) : option cell := None.

(** A provider quoting 7 on every single day. *)
Definition quote7 (t : string) (d : Z) : option cell := Some (Num 7).

Definition qte (q : Q) : item := Item (Some q) None.
Definition prc (v : scalar) : item := Item None (Some v).

(** A buy of 10 at 5, then an entry that gives a price but no quantity. *)
Definition ledger_no_qte : ledger :=
  {[ "X" := {[ jan02 := [qte 10; prc (SNum 5)]; jan03 := [prc (SNum 6)] ]} ]}.

(** A buy whose price is left to the provider, in a ledger that declares
    no price at all. *)
Definition ledger_never_priced : ledger :=
  {[ "X" := {[ jan02 := [qte 10] ]} ]}.

(** A ledger of prices only. *)
Definition ledger_no_quantities : ledger :=
  {[ "X" := {[ jan02 := [prc (SNum 5)] ]} ]}.

(** Two quantity records of 5 on one date. *)
Definition ledger_two_buys : ledger :=
  {[ "X" := {[ jan02 := [qte 5; qte 5; prc (SNum 2)] ]} ]}.

(** Declared, spelled, unparsable and absent prices. *)
Definition ledger_prices : ledger :=
  {[ "X" := {[ jan02 := [qte 1; prc (SNum 3)];
               jan03 := [qte 1; prc (SStr "5.0")];
               jan04 := [qte 1; prc (SStr "n/a")];
               jan05 := [qte 1] ]} ]}.

(** One buy of 10 at 5 on 2020-01-02. *)
Definition ledger_one_buy : ledger :=
  {[ "X" := {[ jan02 := [qte 10; prc (SNum 5)] ]} ]}.

(** Closes of the trading days only: Saturday 2020-01-04 and Sunday
    2020-01-05 have no row; the close of 2020-01-03 is missing. *)
Definition market_weekdays : list Px.row :=
  [Px.Row jan02 "X" (Num 6); Px.Row jan03 "X" NaN; Px.Row jan06 "X" (Num 7)].

(** Ten shares received for free. *)
Definition ledger_free_shares : ledger :=
  {[ "X" := {[ jan02 := [qte 10; prc (SNum 0)] ]} ]}.

(** A buy of 10 at 5, then a buy of 5 with no declared price. *)
Definition ledger_unpriced : ledger :=
  {[ "X" := {[ jan02 := [qte 10; prc (SNum 5)]; jan03 := [qte 5] ]} ]}.

(** A buy of 10 at 5, then a sale of 4 at 6. *)
Definition ledger_buy_sell : ledger :=
  {[ "X" := {[ jan02 := [qte 10; prc (SNum 5)];
               jan03 := [qte (-4); prc (SNum 6)] ]} ]}.

(** A first buy on 2020-01-03. *)
Definition ledger_late_buy : ledger :=
  {[ "X" := {[ jan03 := [qte 10; prc (SNum 5)] ]} ]}.

(** The one buy of [ledger_one_buy] beside another ticker. *)
Definition ledger_two_tickers : ledger :=
  {[ "X" := {[ jan02 := [qte 10; prc (SNum 5)] ]};
     "A" := {[ jan02 := [qte 3; prc (SNum 2)] ]} ]}.

(** Closes of "X" on three trading days. *)
Definition market_three_days : list Px.row :=
  [Px.Row jan02 "X" (Num 6); Px.Row jan03 "X" (Num 8);
   Px.Row jan06 "X" (Num 7)].
(** * Properties *)

(** ** Cells *)

Lemma isna_true c : isna c = true ↔ c = NaN.
Proof. by destruct c. Qed.

Lemma isna_false c : isna c = false ↔ c ≠ NaN.
Proof. by destruct c. Qed.

Lemma cell_div_zero a q :
  Qnum q = 0 → cell_div a (Num q) = signed_inf (cell_sgn a).
Proof.
  intros Hq. destruct a as [x| | |]; simpl; try done.
  - by rewrite decide_True.
  - rewrite decide_False by lia. done.
  - rewrite decide_False by lia. done.
Qed.

(** ** Grouped transforms *)

Section groupby_facts.
Context {St : Type} (upd : St → cell → St) (out : St → cell → cell).
Context (init : St).

Lemma length_groupby_scan st kv :
  length (groupby_scan upd out init st kv) = length kv.
Proof.
  revert st. induction kv as [|[k v] kv IH]; intros st; simpl; [done|].
  by rewrite IH.
Qed.

(** Row [i] carries the output of the state reached by folding the
    values of its own group up to and including row [i]. *)
Lemma groupby_scan_lookup st kv i k v :
  kv !! i = Some (k, v) →
  groupby_scan upd out init st kv !! i =
    Some (out (foldl upd (default init (st !! k))
                 (group_vals k (take (S i) kv))) v).
Proof.
  revert st i. induction kv as [|[k0 v0] kv IH]; intros st i Hi; [done|].
  destruct i as [|i]; simpl in *.
  - simplify_eq. unfold group_vals. rewrite take_0.
    rewrite filter_cons_True by done. done.
  - rewrite (IH _ _ Hi). unfold group_vals.
    destruct (decide (k0 = k)) as [->|Hne].
    + rewrite filter_cons_True by done. simpl.
      by rewrite lookup_insert_eq.
    + rewrite filter_cons_False by done.
      by rewrite lookup_insert_ne.
Qed.
End groupby_facts.

Lemma zip_fmap_same {A B C} (f : A → B) (g : A → C) (l : list A) :
  zip (f <$> l) (g <$> l) = (λ x, (f x, g x)) <$> l.
Proof. induction l; simpl; [done|]. by f_equal. Qed.

Lemma zip_with_fmap_same {A B C D} (h : B → C → D) (f : A → B) (g : A → C)
    (l : list A) :
  zip_with h (f <$> l) (g <$> l) = (λ x, h (f x) (g x)) <$> l.
Proof. induction l; simpl; [done|]. by f_equal. Qed.

Lemma group_vals_fmap {A} (f : A → string) (g : A → cell) k (l : list A) :
  group_vals k ((λ x, (f x, g x)) <$> l) = g <$> filter (λ x, f x = k) l.
Proof.
  unfold group_vals. induction l as [|x l IH]; [done|].
  rewrite fmap_cons. destruct (decide (f x = k)) as [Hk|Hk].
  - rewrite !filter_cons_True by done. rewrite !fmap_cons. by f_equal.
  - rewrite !filter_cons_False by done. done.
Qed.

(** A grouped transform of a column computed from the rows themselves. *)
Lemma groupby_scan_rows_lookup {A St} (upd : St → cell → St)
    (out : St → cell → cell) (init : St) (f : A → string) (g : A → cell)
    (l : list A) i x :
  l !! i = Some x →
  groupby_scan upd out init ∅ ((λ y, (f y, g y)) <$> l) !! i =
    Some (out (foldl upd init (g <$> filter (λ y, f y = f x) (take (S i) l)))
            (g x)).
Proof.
  intros Hi.
  erewrite groupby_scan_lookup; last by rewrite list_lookup_fmap, Hi.
  by rewrite lookup_empty, <-fmap_take, group_vals_fmap.
Qed.

Lemma groupby_scan_rows {A St} (upd : St → cell → St) (out : St → cell → cell)
    (init : St) (f : A → string) (g : A → cell) (l : list A) i x :
  l !! i = Some x →
  groupby_scan upd out init ∅ ((λ y, (f y, g y)) <$> l) !!! i =
    out (foldl upd init (g <$> filter (λ y, f y = f x) (take (S i) l))) (g x).
Proof.
  intros Hi. by apply list_lookup_total_correct, groupby_scan_rows_lookup.
Qed.

(** ** The sort order *)

Global Instance key_le_trans : Transitive key_le.
Proof.
  intros a b c [Hab Hab'] [Hbc Hbc']. split; [by etrans|].
  intros Hac. rewrite Hac in Hab.
  assert (b.1 = c.1) as Hb by (by apply (anti_symm String.le)).
  specialize (Hbc' Hb). rewrite <-Hb in Hac. specialize (Hab' Hac). lia.
Qed.

Global Instance key_le_total : Total key_le.
Proof.
  intros a b. unfold key_le.
  destruct (decide (a.1 = b.1)) as [He|Hne].
  - rewrite He. destruct (Z.le_ge_cases a.2 b.2); [left|right]; split; auto.
    all: reflexivity.
  - destruct (total String.le a.1 b.1); [left|right]; split; auto.
    all: intros; congruence.
Qed.

Global Instance rec_le_trans : Transitive rec_le.
Proof. intros a b c. unfold rec_le. apply key_le_trans. Qed.

Global Instance rec_le_total : Total rec_le.
Proof. intros a b. unfold rec_le. apply key_le_total. Qed.

(** ** Lists with pairwise distinct keys *)

Lemma NoDup_fmap_inj {A B} (f : A → B) (l : list A) x y :
  NoDup (f <$> l) → x ∈ l → y ∈ l → f x = f y → x = y.
Proof.
  induction l as [|a l IH]; intros Hnd Hx Hy Hf; [by apply elem_of_nil in Hx|].
  rewrite fmap_cons in Hnd. apply NoDup_cons in Hnd as [Ha Hnd].
  apply elem_of_cons in Hx as [->|Hx], Hy as [->|Hy]; auto.
  - destruct Ha. rewrite Hf. by apply list_elem_of_fmap_2.
  - destruct Ha. rewrite <-Hf. by apply list_elem_of_fmap_2.
Qed.

Lemma filter_none {A} (P : A → Prop) `{∀ x, Decision (P x)} (l : list A) :
  (∀ x, x ∈ l → ¬ P x) → filter P l = [].
Proof.
  induction l as [|a l IH]; intros Hl; [done|].
  rewrite filter_cons_False by (apply Hl; left).
  apply IH. intros x Hx. apply Hl. by right.
Qed.

Lemma filter_all {A} (P : A → Prop) `{∀ x, Decision (P x)} (l : list A) :
  (∀ x, x ∈ l → P x) → filter P l = l.
Proof.
  induction l as [|a l IH]; intros Hl; [done|].
  rewrite filter_cons_True by (apply Hl; left).
  f_equal. apply IH. intros x Hx. apply Hl. by right.
Qed.

(** At most one row carries a given key. *)
Lemma filter_key_NoDup {A B} `{EqDecision B} (f : A → B) (l : list A) k :
  NoDup (f <$> l) →
  filter (λ x, f x = k) l = [] ∨ ∃ x, filter (λ x, f x = k) l = [x].
Proof.
  induction l as [|a l IH]; intros Hnd; [by left|].
  rewrite fmap_cons in Hnd. apply NoDup_cons in Hnd as [Ha Hnd].
  destruct (decide (f a = k)) as [Hk|Hk].
  - right. exists a. rewrite filter_cons_True by done. f_equal.
    apply filter_none. intros x Hx Hfx. destruct Ha.
    rewrite Hk, <-Hfx. by apply list_elem_of_fmap_2.
  - rewrite filter_cons_False by done. auto.
Qed.

(** ** The records of the ledger *)

Section format_facts.
Variable to_numeric : string → cell.
Variable yf_close : string → Z → option cell.

Local Abbreviation records := (records to_numeric yf_close).
Local Abbreviation format_transactions :=
  (format_transactions to_numeric yf_close).
Local Abbreviation next_PRICE := (next_PRICE to_numeric).
Local Abbreviation record_of := (record_of to_numeric yf_close).

Lemma elem_of_records p rec :
  rec ∈ records p ↔ ∃ t d details, entry p t d details ∧ rec = record_of t d details.
Proof.
  unfold records, entry. rewrite list_elem_of_bind. split.
  - intros [[t txns] [Hin Ht]]. apply elem_of_map_to_list in Ht.
    apply list_elem_of_bind in Hin as [[d details] [Hin Hd]].
    apply elem_of_map_to_list in Hd. apply list_elem_of_singleton in Hin.
    exists t, d, details. eauto.
  - intros (t & d & details & (txns & Ht & Hd) & ->).
    exists (t, txns). split; [|by apply elem_of_map_to_list].
    apply list_elem_of_bind. exists (d, details).
    split; [|by apply elem_of_map_to_list]. by apply list_elem_of_singleton.
Qed.

Lemma records_keys_aux (l : list (string * gmap Z (list item))) :
  NoDup l.*1 →
  NoDup (Rec.key <$>
    (l ≫= λ '(t, txns), map_to_list txns ≫= λ '(d, details),
       [record_of t d details])).
Proof.
  induction l as [|[t txns] l IH]; intros Hnd; [constructor|].
  rewrite fmap_cons in Hnd. apply NoDup_cons in Hnd as [Ht Hnd].
  rewrite bind_cons, fmap_app. apply NoDup_app. split_and!.
  - assert (Rec.key <$> (map_to_list txns ≫= λ '(d, details),
               [record_of t d details]) = (λ d, (t, d)) <$> (map_to_list txns).*1)
      as ->.
    { induction (map_to_list txns) as [|[d details] m IHm]; [done|].
      rewrite bind_cons, !fmap_cons. simpl. by f_equal. }
    apply NoDup_fmap_2; [by intros ?? [=]|apply NoDup_fst_map_to_list].
  - intros k Hk1 Hk2.
    apply list_elem_of_fmap in Hk1 as (r1 & -> & Hr1).
    apply list_elem_of_bind in Hr1 as [[d details] [Hr1 _]].
    apply list_elem_of_singleton in Hr1 as ->.
    apply list_elem_of_fmap in Hk2 as (r2 & Heq & Hr2).
    apply list_elem_of_bind in Hr2 as [[t2 txns2] [Hr2 Hin]].
    apply list_elem_of_bind in Hr2 as [[d2 details2] [Hr2 _]].
    apply list_elem_of_singleton in Hr2 as ->.
    injection Heq as -> ->. apply Ht.
    by apply (list_elem_of_fmap_2 fst _ (t2, txns2)).
  - by apply IH.
Qed.

(** Dict keys are unique: no two records share (ticker, date). *)
Lemma NoDup_records_keys p : NoDup (Rec.key <$> records p).
Proof. apply records_keys_aux, NoDup_fst_map_to_list. Qed.

Lemma sort_values_perm rs : sort_values rs ≡ₚ rs.
Proof. apply merge_sort_Permutation. Qed.

Lemma sort_values_sorted rs : StronglySorted rec_le (sort_values rs).
Proof. apply StronglySorted_merge_sort; apply _. Qed.

Lemma NoDup_sorted_keys p : NoDup (Rec.key <$> sort_values (records p)).
Proof. rewrite sort_values_perm. apply NoDup_records_keys. Qed.

Lemma next_QTE_None details :
  next_QTE details = None ↔ Forall (λ it, QTE it = None) details.
Proof.
  induction details as [|it l IH]; simpl; [by split|].
  rewrite Forall_cons. destruct (QTE it); [by split; [|intros [? _]]|].
  rewrite IH. naive_solver.
Qed.

Lemma next_PRICE_None details :
  next_PRICE details = None ↔ Forall (λ it, PRICE it = None) details.
Proof.
  induction details as [|it l IH]; simpl; [by split|].
  rewrite Forall_cons. destruct (PRICE it); [by split; [|intros [? _]]|].
  rewrite IH. naive_solver.
Qed.

Lemma object_dtype_false {A} (col : Rec.row → option A) recs :
  object_dtype col recs = false ↔ ∃ r, r ∈ recs ∧ is_Some (col r).
Proof.
  unfold object_dtype. induction recs as [|r recs IH]; simpl.
  - split; [done|]. by intros (r & ?%elem_of_nil & _).
  - destruct (col r) as [x|] eqn:Hr; simpl.
    + split; [|done]. intros _. exists r. split; [left|by rewrite Hr].
    + rewrite IH. split.
      * intros (r' & Hr' & Hs). exists r'. split; [by right|done].
      * intros (r' & [->|Hr']%elem_of_cons & Hs); [|eauto].
        rewrite Hr in Hs. by destruct Hs.
Qed.

(** The quantity column holds a number exactly when some entry holds a
    quantity record, and likewise for the price. *)
Lemma quantity_column_numeric p :
  object_dtype Rec.quantity_flow (records p) = false ↔ has_quantity p.
Proof.
  rewrite object_dtype_false. unfold has_quantity. split.
  - intros (r & (t & d & details & He & ->)%elem_of_records & Hs).
    simpl in Hs. destruct (next_QTE details) as [q|] eqn:Hq;
      [|by destruct Hs].
    assert (¬ Forall (λ it, QTE it = None) details) as Hex
      by (rewrite <-next_QTE_None; congruence).
    apply not_Forall_Exists in Hex; [|apply _].
    apply Exists_exists in Hex as (it & Hit & Hsome).
    destruct (QTE it) as [q'|] eqn:Hq'; [|done]. eauto 10.
  - intros (t & d & details & it & q & He & Hit & Hq).
    exists (record_of t d details). split; [apply elem_of_records; eauto 10|].
    simpl. destruct (next_QTE details) eqn:Hn; [done|].
    apply next_QTE_None in Hn. rewrite Forall_forall in Hn.
    specialize (Hn it Hit). congruence.
Qed.

Lemma price_column_numeric p :
  object_dtype Rec.price (records p) = false ↔ declares_price p.
Proof.
  rewrite object_dtype_false. unfold declares_price. split.
  - intros (r & (t & d & details & He & ->)%elem_of_records & Hs).
    simpl in Hs. destruct (next_PRICE details) as [q|] eqn:Hq;
      [|by destruct Hs].
    assert (¬ Forall (λ it, PRICE it = None) details) as Hex
      by (rewrite <-next_PRICE_None; congruence).
    apply not_Forall_Exists in Hex; [|apply _].
    apply Exists_exists in Hex as (it & Hit & Hsome).
    destruct (PRICE it) as [q'|] eqn:Hq'; [|done]. eauto 10.
  - intros (t & d & details & it & q & He & Hit & Hq).
    exists (record_of t d details). split; [apply elem_of_records; eauto 10|].
    simpl. destruct (next_PRICE details) eqn:Hn; [done|].
    apply next_PRICE_None in Hn. rewrite Forall_forall in Hn.
    specialize (Hn it Hit). congruence.
Qed.

(** [format_transactions] returns its frame exactly when some entry holds
    a quantity and some entry holds a price. *)
Lemma format_transactions_Ok p :
  has_quantity p → declares_price p →
  format_transactions p = Ok (resolve (sort_values (records p))).
Proof.
  intros Hq%quantity_column_numeric Hp%price_column_numeric.
  unfold format_transactions.
  destruct (records p) eqn:Hr; [done|]. by rewrite Hq, Hp.
Qed.

Lemma format_transactions_inv p df :
  format_transactions p = Ok df → df = resolve (sort_values (records p)).
Proof.
  unfold format_transactions. destruct (records p); [done|].
  repeat case_match; try done. by intros [= <-].
Qed.

Lemma format_transactions_Ok_inv p df :
  format_transactions p = Ok df → has_quantity p ∧ declares_price p.
Proof.
  rewrite <-quantity_column_numeric, <-price_column_numeric.
  unfold format_transactions. destruct (records p); [done|].
  repeat case_match; done.
Qed.
End format_facts.

(** ** The frame of [format_transactions], row by row *)

Lemma resolve_lookup rs i r :
  rs !! i = Some r → resolve rs !! i = Some (resolved rs i r).
Proof.
  intros Hi. unfold resolve. rewrite list_lookup_imap, Hi. simpl.
  rewrite <-(list_fmap_compose quantity_flow_of).
  rewrite !zip_with_fmap_same.
  unfold groupby_cumsum.
  rewrite !(groupby_scan_rows _ _ _ _ _ _ _ _ Hi).
  rewrite !(list_lookup_total_correct _ i _ (eq_trans (list_lookup_fmap _ _ _) (f_equal _ Hi))).
  done.
Qed.

Lemma length_resolve rs : length (resolve rs) = length rs.
Proof. unfold resolve. by rewrite length_imap. Qed.

Lemma elem_of_resolve rs r :
  r ∈ resolve rs ↔ ∃ i rec, rs !! i = Some rec ∧ r = resolved rs i rec.
Proof.
  rewrite list_elem_of_lookup. split.
  - intros [i Hi]. destruct (rs !! i) as [rec|] eqn:Hrec.
    + rewrite (resolve_lookup _ _ _ Hrec) in Hi. naive_solver.
    + apply lookup_ge_None in Hrec. rewrite <-length_resolve in Hrec.
      apply lookup_ge_None in Hrec. congruence.
  - intros (i & rec & Hi & ->). exists i. by apply resolve_lookup.
Qed.

Lemma resolve_keys rs : Df.key <$> resolve rs = Rec.key <$> rs.
Proof.
  apply list_eq. intros i. rewrite !list_lookup_fmap.
  destruct (rs !! i) as [rec|] eqn:Hrec.
  - by rewrite (resolve_lookup _ _ _ Hrec).
  - apply lookup_ge_None in Hrec. rewrite <-length_resolve in Hrec.
    apply lookup_ge_None in Hrec. by rewrite Hrec.
Qed.

Section format_rows.
Variable to_numeric : string → cell.
Variable yf_close : string → Z → option cell.

Local Abbreviation records := (records to_numeric yf_close).
Local Abbreviation format_transactions :=
  (format_transactions to_numeric yf_close).
Local Abbreviation next_PRICE := (next_PRICE to_numeric).
Local Abbreviation record_of := (record_of to_numeric yf_close).

Lemma NoDup_df_keys p df :
  format_transactions p = Ok df → NoDup (Df.key <$> df).
Proof.
  intros ->%format_transactions_inv. rewrite resolve_keys.
  apply NoDup_sorted_keys.
Qed.

(** Every ledger entry has its row in the frame, and only one. *)
Lemma format_row p df t d details :
  format_transactions p = Ok df →
  entry p t d details →
  ∃ i r,
    sort_values (records p) !! i = Some (record_of t d details) ∧
    r = resolved (sort_values (records p)) i (record_of t d details) ∧
    r ∈ df ∧
    ∀ r', r' ∈ df → Df.key r' = (t, d) → r' = r.
Proof.
  intros Hdf He. pose proof (NoDup_df_keys _ _ Hdf) as Hnd.
  apply format_transactions_inv in Hdf as ->.
  assert (record_of t d details ∈ sort_values (records p)) as Hin.
  { rewrite sort_values_perm. apply elem_of_records. eauto 10. }
  apply list_elem_of_lookup in Hin as [i Hi].
  eexists i, _. split_and!; [done..| |].
  - apply elem_of_resolve. eauto.
  - intros r' Hr' Hk.
    eapply (NoDup_fmap_inj Df.key); [done|done| |done].
    apply elem_of_resolve. eauto.
Qed.

(** Conversely every row of the frame comes from a ledger entry. *)
Lemma format_row_inv p df r :
  format_transactions p = Ok df → r ∈ df →
  ∃ details i,
    entry p (Df.ticker r) (Df.date r) details ∧
    sort_values (records p) !! i =
      Some (record_of (Df.ticker r) (Df.date r) details) ∧
    r = resolved (sort_values (records p)) i
          (record_of (Df.ticker r) (Df.date r) details).
Proof.
  intros ->%format_transactions_inv (i & rec & Hi & ->)%elem_of_resolve.
  assert (rec ∈ records p) as Hrec.
  { rewrite <-sort_values_perm. by eapply list_elem_of_lookup_2. }
  apply elem_of_records in Hrec as (t & d & details & He & ->).
  exists details, i. done.
Qed.

Lemma next_QTE_first pre it post q :
  Forall (λ it, QTE it = None) pre → QTE it = Some q →
  next_QTE (pre ++ it :: post) = Some q.
Proof.
  induction 1 as [|x l Hx _ IH]; simpl; intros Hq; [by rewrite Hq|].
  rewrite Hx. auto.
Qed.

Lemma next_PRICE_first pre it post v :
  Forall (λ it, PRICE it = None) pre → PRICE it = Some v →
  next_PRICE (pre ++ it :: post) = Some (coerce to_numeric v).
Proof.
  induction 1 as [|x l Hx _ IH]; simpl; intros Hq; [by rewrite Hq|].
  rewrite Hx. auto.
Qed.
End format_rows.

(** ** The calendar grid *)

Lemma elem_of_unique_from seen l x :
  x ∈ unique_from seen l ↔ x ∈ l ∧ x ∉ seen.
Proof.
  revert seen. induction l as [|y l IH]; intros seen; simpl.
  - split; [by intros ?%elem_of_nil|by intros [?%elem_of_nil _]].
  - destruct (decide (y ∈ seen)) as [Hy|Hy].
    + rewrite IH, elem_of_cons. naive_solver.
    + rewrite !elem_of_cons, IH, elem_of_cons.
      destruct (decide (x = y)); naive_solver.
Qed.

Lemma NoDup_unique_from seen l : NoDup (unique_from seen l).
Proof.
  revert seen. induction l as [|y l IH]; intros seen; simpl; [constructor|].
  destruct (decide (y ∈ seen)); [done|]. apply NoDup_cons. split; [|done].
  rewrite elem_of_unique_from, elem_of_cons. naive_solver.
Qed.

Lemma elem_of_unique l x : x ∈ unique l ↔ x ∈ l.
Proof.
  unfold unique. rewrite elem_of_unique_from. split; [by intros [? _]|].
  intros ?. split; [done|]. apply not_elem_of_nil.
Qed.

Lemma from_product_cons t ts ds :
  from_product (t :: ts) ds = ((λ d, (t, d)) <$> ds) ++ from_product ts ds.
Proof.
  unfold from_product. rewrite bind_cons.
  assert ((ds ≫= λ d, [(t, d)]) = (λ d, (t, d)) <$> ds) as ->; [|done].
  induction ds as [|d ds IH]; [done|]. rewrite bind_cons, fmap_cons. by f_equal.
Qed.

Lemma elem_of_from_product ts ds t d :
  (t, d) ∈ from_product ts ds ↔ t ∈ ts ∧ d ∈ ds.
Proof.
  induction ts as [|t0 ts IH].
  - split; [by intros ?%elem_of_nil|by intros [?%elem_of_nil _]].
  - rewrite from_product_cons, elem_of_app, IH, list_elem_of_fmap, elem_of_cons.
    naive_solver.
Qed.

(** In the product, the rows of ticker [t] up to the row of [(t, d)] are
    the days up to [d]. *)
Lemma from_product_lookup ts ds i t d :
  NoDup ts → from_product ts ds !! i = Some (t, d) →
  ∃ j, ds !! j = Some d ∧
    filter (λ k, k.1 = t) (take (S i) (from_product ts ds)) =
      (λ d', (t, d')) <$> take (S j) ds.
Proof.
  induction ts as [|t0 ts IH] in i |- *; intros Hnd Hi; [done|].
  apply NoDup_cons in Hnd as [Ht0 Hnd].
  rewrite from_product_cons in Hi |- *.
  destruct (decide (i < length ds)%nat) as [Hlt|Hge].
  - rewrite lookup_app_l in Hi by (by rewrite length_fmap).
    rewrite list_lookup_fmap in Hi.
    destruct (ds !! i) as [d0|] eqn:Hd; simplify_eq/=.
    exists i. split; [done|].
    rewrite take_app_le by (rewrite length_fmap; lia).
    rewrite <-fmap_take. apply filter_all.
    by intros k (? & -> & _)%list_elem_of_fmap.
  - rewrite lookup_app_r in Hi by (rewrite length_fmap; lia).
    rewrite length_fmap in Hi.
    assert (t ∈ ts) as Ht.
    { eapply (elem_of_from_product ts ds t d), list_elem_of_lookup_2, Hi. }
    destruct (IH _ Hnd Hi) as (j & Hj & Hf). exists j. split; [done|].
    rewrite take_app_ge by (rewrite length_fmap; lia).
    rewrite length_fmap, filter_app.
    replace (S i - length ds)%nat with (S (i - length ds)) by lia.
    rewrite Hf, filter_none; [done|].
    intros k (? & -> & _)%list_elem_of_fmap ?. simpl in *. congruence.
Qed.

Lemma take_seqZ m n j :
  Z.of_nat j ≤ n → take j (seqZ m n) = seqZ m (Z.of_nat j).
Proof.
  intros Hj. replace n with (Z.of_nat j + (n - Z.of_nat j)) by lia.
  rewrite seqZ_app by lia. apply take_app_length'.
  rewrite length_seqZ. lia.
Qed.

Section grid_facts.
Variable today : Z.

Lemma NoDup_multi_index df : NoDup (multi_index today df).
Proof.
  unfold multi_index.
  generalize (NoDup_unique_from [] (Df.ticker <$> df)).
  fold (unique (Df.ticker <$> df)).
  generalize (unique (Df.ticker <$> df)) as ts.
  induction ts as [|t ts IH]; intros Hnd; [constructor|].
  apply NoDup_cons in Hnd as [Ht Hnd].
  rewrite from_product_cons. apply NoDup_app. split_and!.
  - apply NoDup_fmap_2; [by intros ?? [=]|apply NoDup_seqZ].
  - intros [t' d'] (? & [= -> ->] & _)%list_elem_of_fmap
      [Hin _]%elem_of_from_product. done.
  - by apply IH.
Qed.

Lemma elem_of_multi_index df t d :
  (t, d) ∈ multi_index today df ↔ tracked df t ∧ start_date ≤ d ≤ today.
Proof.
  unfold multi_index, date_range, tracked.
  rewrite elem_of_from_product, elem_of_unique, list_elem_of_fmap, elem_of_seqZ.
  split.
  - intros [(r & -> & Hr) Hd]. split; [eauto|lia].
  - intros [(r & Hr & <-) Hd]. split; [eauto|lia].
Qed.

(** Row [i] of [full_df] is the forward fill, along the days of its own
    ticker, of the frame's values. *)
Lemma full_df_lookup df i t d :
  multi_index today df !! i = Some (t, d) →
  full_df today df !! i = Some (expanded df t d).
Proof.
  intros Hi. unfold full_df, reindex, groupby_ffill.
  rewrite list_lookup_imap, Hi. simpl.
  rewrite !zip_fmap_same.
  pose proof (from_product_lookup _ _ _ _ _
    (NoDup_unique_from [] (Df.ticker <$> df)) Hi) as (j & Hj & Hf).
  unfold date_range in Hj, Hf. apply lookup_seqZ in Hj as [-> Hj].
  rewrite take_seqZ in Hf by lia.
  assert (∀ col, foldl ffill_upd NaN
      (loc col df <$> filter (λ y, y.1 = (t, start_date + Z.of_nat j).1)
         (take (S i) (multi_index today df))) =
      ffill_to (λ d', loc col df (t, d')) (start_date + Z.of_nat j)) as Hcol.
  { intros col. unfold multi_index, date_range, unique. simpl. rewrite Hf.
    rewrite <-list_fmap_compose. unfold ffill_to. do 3 f_equal. lia. }
  unfold expanded. f_equal. f_equal.
  - apply list_lookup_total_correct. rewrite list_lookup_fmap.
    erewrite (groupby_scan_rows_lookup _ _ _ fst); [|done].
    simpl. by rewrite Hcol.
  - apply list_lookup_total_correct.
    erewrite (groupby_scan_rows_lookup _ _ _ fst); [|done].
    by rewrite Hcol.
  - apply list_lookup_total_correct.
    erewrite (groupby_scan_rows_lookup _ _ _ fst); [|done].
    by rewrite Hcol.
Qed.

Lemma length_full_df df : length (full_df today df) = length (multi_index today df).
Proof. unfold full_df. by rewrite length_imap. Qed.

Lemma full_df_keys df : Full.key <$> full_df today df = multi_index today df.
Proof.
  apply list_eq. intros i. rewrite list_lookup_fmap.
  destruct (multi_index today df !! i) as [[t d]|] eqn:Hi.
  - by rewrite (full_df_lookup _ _ _ _ Hi).
  - apply lookup_ge_None in Hi. rewrite <-length_full_df in Hi.
    apply lookup_ge_None in Hi. by rewrite Hi.
Qed.

Lemma elem_of_full_df df fr :
  fr ∈ full_df today df ↔
    tracked df (Full.ticker fr) ∧ start_date ≤ Full.date fr ≤ today ∧
    fr = expanded df (Full.ticker fr) (Full.date fr).
Proof.
  split.
  - intros [i Hi]%list_elem_of_lookup.
    assert (multi_index today df !! i = Some (Full.key fr)) as Hk.
    { by rewrite <-full_df_keys, list_lookup_fmap, Hi. }
    unfold Full.key in Hk. rewrite (full_df_lookup _ _ _ _ Hk) in Hi.
    apply list_elem_of_lookup_2, elem_of_multi_index in Hk. naive_solver.
  - intros (Ht & Hd & ->).
    assert ((Full.ticker fr, Full.date fr) ∈ multi_index today df) as
      [i Hi]%list_elem_of_lookup by by apply elem_of_multi_index.
    apply list_elem_of_lookup. exists i. by apply full_df_lookup.
Qed.
End grid_facts.

(** ** Forward fill and label lookup *)

Lemma foldl_ffill_na init vs :
  (∀ v, v ∈ vs → v = NaN) → foldl ffill_upd init vs = init.
Proof.
  revert init. induction vs as [|v vs IH]; intros init Hvs; [done|].
  simpl. rewrite (Hvs v) by left. simpl. apply IH. intros ??. apply Hvs. by right.
Qed.

Lemma ffill_to_none f d :
  (∀ d', start_date ≤ d' ≤ d → f d' = NaN) → ffill_to f d = NaN.
Proof.
  intros Hf. unfold ffill_to. apply foldl_ffill_na.
  intros v (d' & -> & Hd')%list_elem_of_fmap. apply elem_of_seqZ in Hd'.
  apply Hf. lia.
Qed.

(** The fill carries the value of the last day that has one. *)
Lemma ffill_to_last f d d0 :
  start_date ≤ d0 ≤ d → f d0 ≠ NaN →
  (∀ d', d0 < d' ≤ d → f d' = NaN) →
  ffill_to f d = f d0.
Proof.
  intros Hd Hd0 Hafter. unfold ffill_to.
  replace (d - start_date + 1) with ((d0 - start_date) + (1 + (d - d0))) by lia.
  rewrite seqZ_app by lia. rewrite seqZ_app by lia.
  rewrite !fmap_app, !foldl_app.
  replace (start_date + (d0 - start_date)) with d0 by lia.
  rewrite (foldl_ffill_na _ (f <$> seqZ (d0 + 1) (d - d0))).
  - rewrite (seqZ_cons d0 1) by lia.
    rewrite (seqZ_nil (Z.succ d0)) by lia. simpl.
    unfold ffill_upd at 1. by apply isna_false in Hd0 as ->.
  - intros v (d' & -> & Hd')%list_elem_of_fmap. apply elem_of_seqZ in Hd'.
    apply Hafter. lia.
Qed.

Lemma loc_elem_of col df r :
  NoDup (Df.key <$> df) → r ∈ df → loc col df (Df.key r) = col r.
Proof.
  intros Hnd Hr. unfold loc.
  destruct (list_find_elem_of (λ r', Df.key r' = Df.key r) df r Hr eq_refl)
    as [[i r'] Hfind].
  rewrite Hfind. simpl. apply list_find_Some in Hfind as (Hi & Hk & _).
  f_equal. eapply (NoDup_fmap_inj Df.key); [done| |done|done].
  by eapply list_elem_of_lookup_2.
Qed.

Lemma loc_absent col df k :
  (∀ r, r ∈ df → Df.key r ≠ k) → loc col df k = NaN.
Proof.
  intros Hk. unfold loc.
  assert (list_find (λ r, Df.key r = k) df = None) as ->; [|done].
  apply list_find_None, Forall_forall. done.
Qed.

(** A label of the frame reads a value of the frame or nothing. *)
Lemma loc_cases col df k :
  loc col df k = NaN ∨ ∃ r, r ∈ df ∧ Df.key r = k ∧ loc col df k = col r.
Proof.
  unfold loc. destruct (list_find _ df) as [[i r]|] eqn:Hfind; [|by left].
  right. apply list_find_Some in Hfind as (Hi & Hk & _).
  exists r. split_and!; [by eapply list_elem_of_lookup_2|done..].
Qed.

(** ** The merged table *)

Lemma tracked_elem_of df t : tracked df t ↔ t ∈ Df.ticker <$> df.
Proof.
  unfold tracked. rewrite list_elem_of_fmap. naive_solver.
Qed.

Section fetch_facts.
Variable market : list Px.row.
Variable today : Z.

Lemma NoDup_full_df_keys df : NoDup (Full.key <$> full_df today df).
Proof. rewrite full_df_keys. apply NoDup_multi_index. Qed.

(** The rows of [full_df] a label selects. *)
Lemma full_df_filter df k :
  filter (λ f, Full.key f = k) (full_df today df) =
    option_list (grid_row today df k).
Proof.
  destruct k as [t d]. unfold grid_row. simpl.
  destruct (filter_key_NoDup Full.key (full_df today df) (t, d)
              (NoDup_full_df_keys df)) as [Hnil|[fr Hfr]].
  - rewrite Hnil. rewrite decide_False; [done|].
    intros [Ht%tracked_elem_of Hd].
    eapply (filter_nil_not_elem_of _ _ (expanded df t d)); [exact Hnil|done|].
    by apply elem_of_full_df.
  - rewrite Hfr.
    assert (fr ∈ filter (λ f, Full.key f = (t, d)) (full_df today df)) as Hin
      by (rewrite Hfr; left).
    apply list_elem_of_filter in Hin as [Hk (Ht & Hd & Hfr')%elem_of_full_df].
    injection Hk as <- <-.
    rewrite decide_True by (by rewrite <-tracked_elem_of).
    simpl. by rewrite <-Hfr'.
Qed.

(** Every price row is merged with at most one row of [full_df]. *)
Lemma merge_left_full_df hist df :
  merge_left hist (full_df today df) =
    (λ h, (h, grid_row today df (Px.key h))) <$> hist.
Proof.
  unfold merge_left. induction hist as [|h hist IH]; [done|].
  rewrite bind_cons, fmap_cons, IH, full_df_filter.
  by destruct (grid_row today df (Px.key h)).
Qed.

(** [fetch_hist_data], one output row for each row of the download. *)
Lemma fetch_hist_data_rows df p :
  fetch_hist_data market today df p =
    (λ h, mask (derive (h, grid_row today df (Px.key h)))) <$>
      download market (map_to_list p).*1 start_date.
Proof.
  unfold fetch_hist_data. rewrite merge_left_full_df.
  by rewrite <-!list_fmap_compose.
Qed.

Lemma elem_of_fetch_hist_data df p o :
  o ∈ fetch_hist_data market today df p ↔
    ∃ h, h ∈ download market (map_to_list p).*1 start_date ∧
         o = mask (derive (h, grid_row today df (Px.key h))).
Proof.
  rewrite fetch_hist_data_rows, list_elem_of_fmap. naive_solver.
Qed.

Lemma elem_of_download tickers start h :
  h ∈ download market tickers start ↔
    h ∈ market ∧ Px.ticker h ∈ tickers ∧ start ≤ Px.date h.
Proof. unfold download. rewrite list_elem_of_filter. naive_solver. Qed.
End fetch_facts.

(** The masked row of a merged pair, field by field. *)
Lemma mask_derive_close hf : Hist.close (mask (derive hf)) = Px.close hf.1.
Proof. done. Qed.

Lemma mask_derive_key hf : Hist.key (mask (derive hf)) = Px.key hf.1.
Proof. done. Qed.

Lemma cell_mul_na_r a : cell_mul a NaN = NaN.
Proof. by destruct a. Qed.

Lemma cell_sub_na_l b : cell_sub NaN b = NaN.
Proof. by destruct b. Qed.

Lemma cell_div_na_l b : cell_div NaN b = NaN.
Proof. by destruct b. Qed.

Lemma cell_div_na_r a : cell_div a NaN = NaN.
Proof. by destruct a. Qed.

Lemma run_inv to_numeric yf_close market today p out :
  run to_numeric yf_close market today p = Ok out →
  ∃ df, format_transactions to_numeric yf_close p = Ok df ∧
        out = fetch_hist_data market today df p.
Proof.
  unfold run. destruct (format_transactions _ _ p) as [df|e]; [|done].
  intros [= <-]. eauto.
Qed.

(** ** Running totals are prefix sums *)

Lemma filter_ext_elem {A} (P Q : A → Prop) `{∀ x, Decision (P x)}
    `{∀ x, Decision (Q x)} (l : list A) :
  (∀ x, x ∈ l → P x ↔ Q x) → filter P l = filter Q l.
Proof.
  induction l as [|a l IH]; intros Hl; [done|].
  assert (filter P l = filter Q l) as Hrec.
  { apply IH. intros x Hx. apply Hl. by right. }
  destruct (decide (P a)) as [Ha|Ha].
  - rewrite !filter_cons_True; [by f_equal| |done]. apply Hl; [left|done].
  - rewrite !filter_cons_False; [done| |done]. intros HQ. apply Ha, Hl; [left|done].
Qed.

Lemma key_le_refl k : key_le k k.
Proof. split; [reflexivity|]. intros _. lia. Qed.

(** In the sorted records, the rows of a ticker that precede one of its
    rows are its rows of an earlier date. *)
Lemma sorted_prefix_filter A rec B :
  StronglySorted rec_le (A ++ rec :: B) →
  NoDup (Rec.key <$> (A ++ rec :: B)) →
  filter (λ y, Rec.ticker y = Rec.ticker rec) (A ++ [rec]) =
    filter (λ y, Rec.ticker y = Rec.ticker rec ∧ Rec.date y ≤ Rec.date rec)
      (A ++ rec :: B).
Proof.
  intros Hs Hnd. rewrite !filter_app.
  rewrite fmap_app, fmap_cons in Hnd.
  apply NoDup_app in Hnd as (_ & _ & Hnd). apply NoDup_cons in Hnd as [Hrec _].
  pose proof (λ x Hx, StronglySorted_app_1_elem_of rec_le A (rec :: B) x rec
                Hs Hx ltac:(left)) as Hbelow.
  apply StronglySorted_app_1_r in Hs. inversion_clear Hs as [|?? _ Habove].
  rewrite Forall_forall in Habove.
  f_equal.
  - apply filter_ext_elem. intros x Hx. split; [|by intros [? _]].
    intros Ht. split; [done|].
    destruct (Hbelow x Hx) as [_ Hd]. unfold Rec.key in Hd. simpl in Hd. by apply Hd.
  - rewrite filter_cons_True by done.
    rewrite (filter_cons_True _ rec) by (split; [done|lia]).
    rewrite filter_nil. f_equal. symmetry. apply filter_none.
    intros y Hy [Ht Hd]. destruct (Habove y Hy) as [_ Hd']. specialize (Hd' (eq_sym Ht)).
    apply Hrec, list_elem_of_fmap. exists y. split; [|done].
    unfold Rec.key in *. simpl in *. f_equal; [done|lia].
Qed.

Lemma sorted_take_filter rs i rec :
  StronglySorted rec_le rs → NoDup (Rec.key <$> rs) → rs !! i = Some rec →
  filter (λ y, Rec.ticker y = Rec.ticker rec) (take (S i) rs) =
    filter (λ y, Rec.ticker y = Rec.ticker rec ∧ Rec.date y ≤ Rec.date rec) rs.
Proof.
  intros Hs Hnd Hi. rewrite (take_S_r _ _ _ Hi).
  rewrite <-(take_drop_middle _ _ _ Hi) in Hs, Hnd |- * at 2.
  by apply sorted_prefix_filter.
Qed.

Lemma finite_or_na_quantity_flow r : finite_or_na (quantity_flow_of r).
Proof. unfold quantity_flow_of. by destruct (Rec.quantity_flow r). Qed.

(** [cumsum] over finite and unavailable values is their exact sum, in
    lowest terms. *)
Lemma foldl_cumsum_nansum vs a :
  Forall finite_or_na vs →
  ∃ q, foldl cumsum_upd (Num a) vs = Num q ∧ (q == a + nansum vs)%Q ∧
       (Qred a = a → Qred q = q).
Proof.
  intros Hvs. revert a. induction Hvs as [|v vs Hv _ IH]; intros a.
  - exists a. simpl. split_and!; [done| |done]. ring.
  - destruct v as [x| | |]; try done; simpl.
    + destruct (IH (Qred (a + x))) as (q & Hfold & Hq & Hred).
      exists q. split_and!; [exact Hfold| |].
      * rewrite Hq, Qred_correct. ring.
      * intros _. apply Hred, Qcanon.Qred_involutive.
    + apply IH.
Qed.

Lemma foldl_cumsum_0 vs :
  Forall finite_or_na vs →
  foldl cumsum_upd (Num 0) vs = Num (Qred (nansum vs)).
Proof.
  intros Hvs. destruct (foldl_cumsum_nansum vs 0 Hvs) as (q & -> & Hq & Hred).
  f_equal. rewrite <-(Hred eq_refl). apply Qred_complete. rewrite Hq. ring.
Qed.

Lemma resolve_flows rs t d :
  Df.quantity_flow <$>
    filter (λ r, Df.ticker r = t ∧ Df.date r ≤ d) (resolve rs) =
  quantity_flow_of <$>
    filter (λ y, Rec.ticker y = t ∧ Rec.date y ≤ d) rs.
Proof.
  assert (∀ (l1 : list Df.row) (l2 : list Rec.row),
    (λ r, (Df.ticker r, Df.date r, Df.quantity_flow r)) <$> l1 =
    (λ y, (Rec.ticker y, Rec.date y, quantity_flow_of y)) <$> l2 →
    Df.quantity_flow <$> filter (λ r, Df.ticker r = t ∧ Df.date r ≤ d) l1 =
    quantity_flow_of <$> filter (λ y, Rec.ticker y = t ∧ Rec.date y ≤ d) l2)
    as Hgen.
  { induction l1 as [|r l1 IH]; intros [|y l2] Heq; try done.
    rewrite !fmap_cons in Heq. injection Heq as Ht Hd Hq Hrest.
    destruct (decide (Rec.ticker y = t ∧ Rec.date y ≤ d)) as [Hy|Hy].
    - rewrite (filter_cons_True _ y) by done.
      rewrite (filter_cons_True _ r) by (by rewrite Ht, Hd).
      rewrite !fmap_cons. f_equal; [done|]. by apply IH.
    - rewrite (filter_cons_False _ y) by done.
      rewrite (filter_cons_False _ r) by (by rewrite Ht, Hd).
      by apply IH. }
  apply Hgen. apply list_eq. intros i. rewrite !list_lookup_fmap.
  destruct (rs !! i) as [rec|] eqn:Hrec.
  - by rewrite (resolve_lookup _ _ _ Hrec).
  - apply lookup_ge_None in Hrec. rewrite <-length_resolve in Hrec.
    apply lookup_ge_None in Hrec. by rewrite Hrec.
Qed.

(** On every row of the frame, [quantity_stock] is unavailable with the
    flow and else the exact sum of the ticker's available flows dated up
    to the row. *)
Lemma quantity_stock_nansum to_numeric yf_close p df r :
  format_transactions to_numeric yf_close p = Ok df → r ∈ df →
  Df.quantity_stock r =
    if isna (Df.quantity_flow r) then NaN
    else Num (Qred (nansum (flows_upto df (Df.ticker r) (Df.date r)))).
Proof.
  intros Hdf Hr.
  destruct (format_row_inv _ _ _ _ _ Hdf Hr) as (details & i & _ & Hi & Hres).
  apply format_transactions_inv in Hdf as ->.
  set (rec := record_of to_numeric yf_close (Df.ticker r) (Df.date r) details)
    in *.
  set (rs := sort_values (records to_numeric yf_close p)) in *.
  assert (Df.ticker r = Rec.ticker rec ∧ Df.date r = Rec.date rec)
    as [Ht Hd] by done.
  rewrite Hres at 1 2. unfold resolved.
  cbn [Df.quantity_stock Df.quantity_flow]. unfold running, cumsum_out.
  destruct (isna _); [done|].
  rewrite (sorted_take_filter rs i rec (sort_values_sorted _)
             (NoDup_sorted_keys _ _ _) Hi).
  rewrite foldl_cumsum_0.
  - unfold flows_upto. by rewrite resolve_flows, Ht, Hd.
  - apply Forall_forall. intros v (y & -> & _)%list_elem_of_fmap.
    apply finite_or_na_quantity_flow.
Qed.

(** ** The expanded series *)

Lemma ffill_to_extend f d1 d2 :
  start_date ≤ d1 ≤ d2 → (∀ d', d1 < d' ≤ d2 → f d' = NaN) →
  ffill_to f d2 = ffill_to f d1.
Proof.
  intros Hd Hna. unfold ffill_to.
  replace (d2 - start_date + 1) with ((d1 - start_date + 1) + (d2 - d1)) by lia.
  rewrite seqZ_app by lia. rewrite fmap_app, foldl_app.
  apply foldl_ffill_na.
  intros v (d' & -> & Hd')%list_elem_of_fmap. apply elem_of_seqZ in Hd'.
  apply Hna. lia.
Qed.






Lemma grid_row_Some today df t d :
  tracked df t → start_date ≤ d ≤ today →
  grid_row today df (t, d) = Some (expanded df t d).
Proof.
  intros Ht%tracked_elem_of Hd. unfold grid_row. by rewrite decide_True.
Qed.

Lemma entry_tracked to_numeric yf_close p df t d details :
  format_transactions to_numeric yf_close p = Ok df →
  entry p t d details → tracked df t.
Proof.
  intros Hdf He.
  destruct (format_row to_numeric yf_close _ _ _ _ _ Hdf He)
    as (i & r & _ & -> & Hin & _).
  by eexists.
Qed.

(** The value forward-filled to day [d] of ticker [t], for one column:
    the one of the ticker's last row, dated within the grid and up to
    [d], where the column is available. *)
Lemma ffill_loc_last col df t d r :
  NoDup (Df.key <$> df) →
  r ∈ df → Df.ticker r = t → start_date ≤ Df.date r ≤ d → col r ≠ NaN →
  (∀ r', r' ∈ df → Df.ticker r' = t → Df.date r < Df.date r' ≤ d →
         col r' = NaN) →
  ffill_to (λ d', loc col df (t, d')) d = col r.
Proof.
  intros Hnd Hr Ht Hd Hcol Hlater.
  assert (loc col df (t, Df.date r) = col r) as Hloc.
  { rewrite <-Ht. by apply (loc_elem_of col df r). }
  rewrite (ffill_to_last _ d (Df.date r)); [done..| |].
  - by rewrite Hloc.
  - intros d' Hd'. destruct (loc_cases col df (t, d'))
      as [->|(r' & Hr' & [= Ht' Hdr'] & ->)]; [done|].
    apply Hlater; [done..|lia].
Qed.

Lemma ffill_loc_none col df t d :
  (∀ r, r ∈ df → Df.ticker r = t → start_date ≤ Df.date r ≤ d →
        col r = NaN) →
  ffill_to (λ d', loc col df (t, d')) d = NaN.
Proof.
  intros Hna. apply ffill_to_none. intros d' Hd'.
  destruct (loc_cases col df (t, d'))
    as [->|(r' & Hr' & [= Ht' Hdr'] & ->)]; [done|].
  apply Hna; [done..|lia].
Qed.

(** ** Running totals of any column *)

Lemma resolve_column (colD : Df.row → cell) (colR : Rec.row → cell) rs t d :
  (∀ rs i rec, colD (resolved rs i rec) = colR rec) →
  colD <$> filter (λ r, Df.ticker r = t ∧ Df.date r ≤ d) (resolve rs) =
  colR <$> filter (λ y, Rec.ticker y = t ∧ Rec.date y ≤ d) rs.
Proof.
  intros Hcol.
  assert (∀ (l1 : list Df.row) (l2 : list Rec.row),
    (λ r, (Df.ticker r, Df.date r, colD r)) <$> l1 =
    (λ y, (Rec.ticker y, Rec.date y, colR y)) <$> l2 →
    colD <$> filter (λ r, Df.ticker r = t ∧ Df.date r ≤ d) l1 =
    colR <$> filter (λ y, Rec.ticker y = t ∧ Rec.date y ≤ d) l2)
    as Hgen.
  { induction l1 as [|r l1 IH]; intros [|y l2] Heq; try done.
    rewrite !fmap_cons in Heq. injection Heq as Ht Hd Hq Hrest.
    destruct (decide (Rec.ticker y = t ∧ Rec.date y ≤ d)) as [Hy|Hy].
    - rewrite (filter_cons_True _ y) by done.
      rewrite (filter_cons_True _ r) by (by rewrite Ht, Hd).
      rewrite !fmap_cons. f_equal; [done|]. by apply IH.
    - rewrite (filter_cons_False _ y) by done.
      rewrite (filter_cons_False _ r) by (by rewrite Ht, Hd).
      by apply IH. }
  apply Hgen. apply list_eq. intros i. rewrite !list_lookup_fmap.
  destruct (rs !! i) as [rec|] eqn:Hrec.
  - rewrite (resolve_lookup _ _ _ Hrec). simpl. by rewrite Hcol.
  - apply lookup_ge_None in Hrec. rewrite <-length_resolve in Hrec.
    apply lookup_ge_None in Hrec. by rewrite Hrec.
Qed.

Lemma running_nansum g rs i rec :
  StronglySorted rec_le rs → NoDup (Rec.key <$> rs) → rs !! i = Some rec →
  (∀ y, y ∈ rs → Rec.ticker y = Rec.ticker rec →
        Rec.date y ≤ Rec.date rec → finite_or_na (g y)) →
  running g rs i rec =
    if isna (g rec) then NaN
    else Num (Qred (nansum
           (g <$> filter (λ y, Rec.ticker y = Rec.ticker rec ∧
                               Rec.date y ≤ Rec.date rec) rs))).
Proof.
  intros Hs Hnd Hi Hfin. unfold running, cumsum_out.
  destruct (isna (g rec)); [done|].
  rewrite (sorted_take_filter rs i rec Hs Hnd Hi).
  apply foldl_cumsum_0, Forall_forall.
  intros v (y & -> & [[Ht Hd] Hy]%list_elem_of_filter)%list_elem_of_fmap.
  by apply Hfin.
Qed.

Lemma finite_or_na_mul a b :
  finite_or_na a → finite_or_na b → finite_or_na (cell_mul a b).
Proof. by destruct a, b. Qed.

Lemma length_from_product ts ds :
  length (from_product ts ds) = (length ts * length ds)%nat.
Proof.
  induction ts as [|t ts IH]; [done|].
  rewrite from_product_cons, length_app, length_fmap, IH. simpl. lia.
Qed.

Lemma cell_mul_na_l b : cell_mul NaN b = NaN.
Proof. done. Qed.

(** ** A ledger of one transaction *)




(** The money stocks of a row as exact sums, when the ticker's prices up
    to the row are finite or unavailable. *)
Lemma money_stocks_nansum to_numeric yf_close p df r :
  format_transactions to_numeric yf_close p = Ok df → r ∈ df →
  (∀ r', r' ∈ df → Df.ticker r' = Df.ticker r → Df.date r' ≤ Df.date r →
         finite_or_na (Df.price r')) →
  Df.spending_stock r =
    (if isna (Df.spending_flow r) then NaN
     else Num (Qred (nansum
            (column_upto Df.spending_flow df (Df.ticker r) (Df.date r))))) ∧
  Df.invested_cash_stock r =
    (if isna (Df.invested_cash_flow r) then NaN
     else Num (Qred (nansum
            (column_upto Df.invested_cash_flow df (Df.ticker r)
               (Df.date r))))).
Proof.
  intros Hdf Hr Hprice.
  destruct (format_row_inv _ _ _ _ _ Hdf Hr) as (details & i & _ & Hi & Hres).
  apply format_transactions_inv in Hdf as ->.
  set (rec := record_of to_numeric yf_close (Df.ticker r) (Df.date r) details)
    in *.
  set (rs := sort_values (records to_numeric yf_close p)) in *.
  assert (Df.ticker r = Rec.ticker rec ∧ Df.date r = Rec.date rec)
    as [Ht Hd] by done.
  assert (∀ y, y ∈ rs → Rec.ticker y = Rec.ticker rec →
               Rec.date y ≤ Rec.date rec → finite_or_na (price_of y)) as Hfin.
  { intros y [j Hj]%list_elem_of_lookup Hty Hdy.
    apply (Hprice (resolved rs j y)); [|by rewrite Ht|by rewrite Hd].
    apply elem_of_resolve. eauto. }
  unfold column_upto.
  rewrite (resolve_column Df.spending_flow spending_flow_of) by done.
  rewrite (resolve_column Df.invested_cash_flow invested_cash_flow_of) by done.
  assert (Df.spending_stock r = running spending_flow_of rs i rec ∧
          Df.spending_flow r = spending_flow_of rec ∧
          Df.invested_cash_stock r = running invested_cash_flow_of rs i rec ∧
          Df.invested_cash_flow r = invested_cash_flow_of rec)
    as (-> & -> & -> & ->) by (by rewrite Hres).
  rewrite Ht, Hd.
  split; apply running_nansum;
    try done; try apply sort_values_sorted; try apply NoDup_sorted_keys.
  - intros y Hy Hty Hdy. apply finite_or_na_mul; [|by apply Hfin].
    apply finite_or_na_quantity_flow.
  - intros y Hy Hty Hdy. apply finite_or_na_mul; [|by apply Hfin].
    unfold where_. destruct (cell_gt0 _); [|done].
    apply finite_or_na_quantity_flow.
Qed.

Lemma nonneg_finite c : nonneg_or_na c → finite_or_na c.
Proof. by destruct c. Qed.

(** The sum over more rows of values that are not negative is not
    smaller. *)
Lemma nansum_filter_mono (col : Df.row → cell) (P1 P2 : Df.row → Prop)
    `{∀ x, Decision (P1 x)} `{∀ x, Decision (P2 x)} (l : list Df.row) :
  (∀ x, P1 x → P2 x) →
  (∀ x, x ∈ l → P2 x → nonneg_or_na (col x)) →
  (nansum (col <$> filter P1 l) <= nansum (col <$> filter P2 l))%Q.
Proof.
  intros Hsub. induction l as [|x l IH]; intros Hpos; [by simpl|].
  assert (nansum (col <$> filter P1 l) <= nansum (col <$> filter P2 l))%Q
    as Hle by (apply IH; intros y Hy; apply Hpos; by right).
  destruct (decide (P2 x)) as [H2|H2].
  - pose proof (Hpos x ltac:(left) H2) as Hx.
    rewrite (filter_cons_True P2) by done.
    destruct (decide (P1 x)) as [H1|H1].
    + rewrite (filter_cons_True P1) by done. rewrite !fmap_cons. simpl.
      destruct (col x); try done. by apply Qplus_le_r.
    + rewrite (filter_cons_False P1) by done. rewrite fmap_cons. simpl.
      destruct (col x) as [q| | |]; try done. simpl in Hx.
      rewrite <-(Qplus_0_l (nansum _)). by apply Qplus_le_compat.
  - rewrite (filter_cons_False P2) by done.
    rewrite (filter_cons_False P1) by (intros ?; apply H2; auto). done.
Qed.

Lemma cell_mul_0_l c : cell_mul (Num 0) (Num c) = Num 0.
Proof. by destruct c. Qed.

Lemma invested_cash_flow_nonneg a b :
  finite_or_na a → nonneg_or_na b →
  nonneg_or_na (cell_mul (where_ (cell_gt0 a) a (Num 0)) b).
Proof.
  intros Ha Hb. destruct b as [c| | |]; try done.
  - destruct a as [q| | |]; try done.
    unfold where_, cell_gt0. case_bool_decide as Hq.
    + unfold cell_mul, nonneg_or_na in *. rewrite Qred_correct.
      apply Qmult_le_0_compat; [|done]. unfold Qle. simpl. lia.
    + rewrite cell_mul_0_l. apply Qle_refl.
  - by rewrite cell_mul_na_r.
Qed.

(** ** The rows of one ticker *)

Lemma filter_fmap_comm {A B} (f : A → B) (P : B → Prop)
    `{∀ x, Decision (P x)} (l : list A) :
  filter P (f <$> l) = f <$> filter (λ x, P (f x)) l.
Proof.
  induction l as [|a l IH]; [done|]. rewrite fmap_cons.
  destruct (decide (P (f a))) as [Ha|Ha].
  - rewrite !filter_cons_True by done. rewrite fmap_cons. by f_equal.
  - rewrite !filter_cons_False by done. done.
Qed.

Lemma StronglySorted_filter {A} (R : relation A) (P : A → Prop)
    `{∀ x, Decision (P x)} (l : list A) :
  StronglySorted R l → StronglySorted R (filter P l).
Proof.
  induction 1 as [|x l _ IH Hx]; [constructor|].
  destruct (decide (P x)).
  - rewrite filter_cons_True by done. constructor; [done|].
    rewrite Forall_forall in Hx |- *.
    intros y [_ Hy]%list_elem_of_filter. by apply Hx.
  - by rewrite filter_cons_False.
Qed.

Lemma resolved_by_date rs i rec :
  StronglySorted rec_le rs → NoDup (Rec.key <$> rs) → rs !! i = Some rec →
  resolved rs i rec =
    row_by_date (filter (λ y, Rec.ticker y = Rec.ticker rec) rs) rec.
Proof.
  intros Hs Hnd Hi. unfold resolved, row_by_date, running.
  rewrite (sorted_take_filter rs i rec Hs Hnd Hi).
  rewrite list_filter_filter.
  rewrite (list_filter_iff
    (λ a, Rec.date a ≤ Rec.date rec ∧ Rec.ticker a = Rec.ticker rec)
    (λ y, Rec.ticker y = Rec.ticker rec ∧ Rec.date y ≤ Rec.date rec))
    by (intros; tauto).
  done.
Qed.

(** The rows of ticker [t] in the frame, from the records of [t]. *)
Lemma resolve_ticker_rows rs t :
  StronglySorted rec_le rs → NoDup (Rec.key <$> rs) →
  filter (λ r, Df.ticker r = t) (resolve rs) =
    row_by_date (filter (λ y, Rec.ticker y = t) rs) <$>
      filter (λ y, Rec.ticker y = t) rs.
Proof.
  intros Hs Hnd.
  assert (resolve rs =
    (λ rec, row_by_date (filter (λ y, Rec.ticker y = Rec.ticker rec) rs) rec)
      <$> rs) as ->.
  { apply list_eq. intros i. rewrite list_lookup_fmap.
    destruct (rs !! i) as [rec|] eqn:Hrec.
    - rewrite (resolve_lookup _ _ _ Hrec). simpl. f_equal.
      by apply resolved_by_date.
    - apply lookup_ge_None in Hrec. rewrite <-length_resolve in Hrec.
      by apply lookup_ge_None in Hrec. }
  rewrite filter_fmap_comm.
  rewrite (list_filter_iff _ (λ y, Rec.ticker y = t)) by done.
  apply list_fmap_ext. intros i x Hx%list_elem_of_lookup_2.
  apply list_elem_of_filter in Hx as [-> _]. done.
Qed.

Lemma ticker_records to_numeric yf_close (p1 p2 : ledger) t :
  p1 !! t = p2 !! t →
  filter (λ y, Rec.ticker y = t) (sort_values (records to_numeric yf_close p1))
  = filter (λ y, Rec.ticker y = t)
      (sort_values (records to_numeric yf_close p2)).
Proof.
  intros Hp.
  assert (∀ p x,
    x ∈ filter (λ y, Rec.ticker y = t)
          (sort_values (records to_numeric yf_close p)) ↔
    ∃ d details, entry p t d details ∧
                 x = record_of to_numeric yf_close t d details) as Hin.
  { intros p x. rewrite list_elem_of_filter, sort_values_perm, elem_of_records.
    split.
    - intros [Ht (t' & d & details & He & ->)]. simpl in Ht. subst t'. eauto.
    - intros (d & details & He & ->). split; [done|]. eauto 10. }
  assert (∀ d details, entry p1 t d details ↔ entry p2 t d details) as Hent.
  { intros d details. unfold entry. by rewrite Hp. }
  apply (StronglySorted_unique_strong rec_le).
  - intros x1 x2 (d1 & det1 & He1 & ->)%Hin (d2 & det2 & He2 & ->)%Hin
      [_ H12] [_ H21].
    simpl in H12, H21. specialize (H12 eq_refl). specialize (H21 eq_refl).
    assert (d1 = d2) as <- by lia.
    apply Hent in He1. destruct He1 as (txns1 & Ht1 & Hd1).
    destruct He2 as (txns2 & Ht2 & Hd2). congruence.
  - apply StronglySorted_filter, sort_values_sorted.
  - apply StronglySorted_filter, sort_values_sorted.
  - apply NoDup_Permutation.
    + apply NoDup_filter. eapply NoDup_fmap_1, NoDup_sorted_keys.
    + apply NoDup_filter. eapply NoDup_fmap_1, NoDup_sorted_keys.
    + intros x. rewrite !Hin. by setoid_rewrite Hent.
Qed.

(** * The claims *)

Section normalizer_claims.
Variable to_numeric : string → cell.
Variable yf_close : string → Z → option cell.

Local Abbreviation format_transactions :=
  (format_transactions to_numeric yf_close).
Local Abbreviation next_PRICE := (next_PRICE to_numeric).

(** C3, as the code has it: a ledger entry whose attribute list holds no
    quantity does not abort the run. In a ledger where some entry holds
    a quantity and some entry holds a price, [format_transactions]
    returns its frame, and the entry is the one row of its (ticker, date)
    there, with [quantity_flow] and [quantity_stock] unavailable. *)
Theorem missing_quantity_is_kept p t d details :
  entry p t d details →
  Forall (λ it, QTE it = None) details →
  has_quantity p → declares_price p →
  ∃ df r,
    format_transactions p = Ok df ∧ r ∈ df ∧ Df.key r = (t, d) ∧
    Df.quantity_flow r = NaN ∧ Df.quantity_stock r = NaN ∧
    ∀ r', r' ∈ df → Df.key r' = (t, d) → r' = r.
Proof.
  intros He Hq Hh Hp.
  pose proof (format_transactions_Ok to_numeric yf_close _ Hh Hp) as Hdf.
  destruct (format_row to_numeric yf_close _ _ _ _ _ Hdf He)
    as (i & r & Hi & -> & Hin & Huniq).
  eexists _, _. split_and!; try done.
  all: unfold resolved, running, quantity_flow_of; simpl.
  all: by rewrite (proj2 (next_QTE_None _) Hq).
Qed.

(** C4, as the code has it: in the frame [format_transactions] returns,
    the [quantity_flow] of a (ticker, date) is the first quantity record
    of its attribute list, whatever follows it. *)
Theorem quantity_flow_is_first_QTE p df t d pre it post q :
  format_transactions p = Ok df →
  entry p t d (pre ++ it :: post) →
  Forall (λ it, QTE it = None) pre →
  QTE it = Some q →
  ∃ r,
    r ∈ df ∧ Df.key r = (t, d) ∧ Df.quantity_flow r = Num q ∧
    ∀ r', r' ∈ df → Df.key r' = (t, d) → r' = r.
Proof.
  intros Hdf He Hpre Hq.
  destruct (format_row to_numeric yf_close _ _ _ _ _ Hdf He)
    as (i & r & Hi & -> & Hin & Huniq).
  eexists. split_and!; try done.
  unfold resolved, quantity_flow_of; simpl.
  by rewrite (next_QTE_first _ _ _ _ Hpre Hq).
Qed.

(** C5: in the frame [format_transactions] returns, the [price] of the
    row of a ledger entry is read off its attribute list. When the first
    ['PRICE'] record holds a number, the price is that number; when it
    holds a string that spells a number, it is the number spelled. When
    no ['PRICE'] record is there, or the first one holds a string that
    spells no number, the price is the close of the single-day lookup,
    and unavailable when that lookup is empty. *)
Theorem effective_price_resolution p df t d details :
  format_transactions p = Ok df →
  entry p t d details →
  ∃ r,
    r ∈ df ∧ Df.key r = (t, d) ∧
    (∀ r', r' ∈ df → Df.key r' = (t, d) → r' = r) ∧
    (∀ pre it post q,
       details = pre ++ it :: post →
       Forall (λ it, PRICE it = None) pre → PRICE it = Some (SNum q) →
       Df.price r = Num q) ∧
    (∀ pre it post s,
       details = pre ++ it :: post →
       Forall (λ it, PRICE it = None) pre → PRICE it = Some (SStr s) →
       to_numeric s ≠ NaN →
       Df.price r = to_numeric s) ∧
    (Forall (λ it, PRICE it = None) details ∨
     (∃ pre it post s,
        details = pre ++ it :: post ∧
        Forall (λ it, PRICE it = None) pre ∧ PRICE it = Some (SStr s) ∧
        to_numeric s = NaN) →
     (∀ m, yf_close t d = Some m → Df.price r = m) ∧
     (yf_close t d = None → Df.price r = NaN)).
Proof.
  intros Hdf He.
  destruct (format_row to_numeric yf_close _ _ _ _ _ Hdf He)
    as (i & r & Hi & -> & Hin & Huniq).
  eexists. split_and!; try done.
  - intros pre it post q -> Hpre Hit. unfold resolved, price_of; simpl.
    by rewrite (next_PRICE_first to_numeric _ _ _ _ Hpre Hit).
  - intros pre it post s -> Hpre Hit Hs. unfold resolved, price_of; simpl.
    rewrite (next_PRICE_first to_numeric _ _ _ _ Hpre Hit). simpl.
    by destruct (to_numeric s).
  - intros Hp. unfold resolved, price_of; simpl.
    assert (next_PRICE details = None ∨ next_PRICE details = Some NaN)
      as Hnp.
    { destruct Hp as [Hp|(pre & it & post & s & -> & Hpre & Hit & Hs)].
      - left. by apply next_PRICE_None.
      - right. rewrite (next_PRICE_first to_numeric _ _ _ _ Hpre Hit).
        simpl. by rewrite Hs. }
    split; [intros m Hm|intros Hm]; rewrite Hm;
      by destruct Hnp as [-> | ->].
Qed.
End normalizer_claims.

(** C3, counterexample: the entry of 2020-01-03 has no quantity and the
    frame is returned all the same. *)
Lemma missing_quantity_not_fatal :
  ¬ missing_quantity_is_fatal to_numeric_ex no_quote ledger_no_qte.
Proof.
  intros H.
  destruct (H "X" jan03 [prc (SNum 6)]) as [e He].
  - eexists. split; vm_compute; reflexivity.
  - repeat constructor.
  - vm_compute in He. discriminate He.
Qed.

Lemma missing_quantity_is_kept_witness :
  ∃ df r,
    format_transactions to_numeric_ex no_quote ledger_no_qte = Ok df ∧
    r ∈ df ∧ Df.key r = ("X", jan03) ∧
    Df.quantity_flow r = NaN ∧ Df.quantity_stock r = NaN ∧
    ∀ r', r' ∈ df → Df.key r' = ("X", jan03) → r' = r.
Proof.
  apply (missing_quantity_is_kept to_numeric_ex no_quote ledger_no_qte
           "X" jan03 [prc (SNum 6)]).
  - eexists. split; vm_compute; reflexivity.
  - repeat constructor.
  - exists "X", jan02, [qte 10; prc (SNum 5)], (qte 10), 10%Q.
    split; [eexists; split; vm_compute; reflexivity|].
    split; [apply list_elem_of_here|reflexivity].
  - exists "X", jan03, [prc (SNum 6)], (prc (SNum 6)), (SNum 6).
    split; [eexists; split; vm_compute; reflexivity|].
    split; [apply list_elem_of_here|reflexivity].
Defined.

(** C4, counterexample: two buys of 5 on one date give a flow of 5. *)
Lemma duplicates_not_summed :
  ¬ duplicates_are_summed to_numeric_ex no_quote ledger_two_buys.
Proof.
  intros H.
  edestruct (H "X" jan02 [qte 5; qte 5; prc (SNum 2)]) as (q & Hq & Hsum).
  - eexists. split; vm_compute; reflexivity.
  - vm_compute. reflexivity.
  - apply list_elem_of_here.
  - reflexivity.
  - simpl in Hq. injection Hq as <-. vm_compute in Hsum. discriminate Hsum.
Qed.

Lemma quantity_flow_is_first_QTE_witness :
  ∃ df r,
    format_transactions to_numeric_ex no_quote ledger_two_buys = Ok df ∧
    r ∈ df ∧ Df.key r = ("X", jan02) ∧ Df.quantity_flow r = Num 5 ∧
    ∀ r', r' ∈ df → Df.key r' = ("X", jan02) → r' = r.
Proof.
  evar (df : list Df.row).
  assert (format_transactions to_numeric_ex no_quote ledger_two_buys = Ok df)
    as Hdf by (vm_compute; reflexivity).
  exists df.
  destruct (quantity_flow_is_first_QTE to_numeric_ex no_quote
              ledger_two_buys df "X" jan02 [] (qte 5) [qte 5; prc (SNum 2)]
              5%Q) as (r & Hr).
  - exact Hdf.
  - eexists. split; vm_compute; reflexivity.
  - constructor.
  - reflexivity.
  - exists r. split; [exact Hdf|exact Hr].
Defined.

Lemma effective_price_resolution_witness :
  ∃ df r2 r3 r4 r5,
    format_transactions to_numeric_ex quote7 ledger_prices = Ok df ∧
    (r2 ∈ df ∧ Df.key r2 = ("X", jan02) ∧ Df.price r2 = Num 3) ∧
    (r3 ∈ df ∧ Df.key r3 = ("X", jan03) ∧ Df.price r3 = Num 5) ∧
    (r4 ∈ df ∧ Df.key r4 = ("X", jan04) ∧ Df.price r4 = Num 7) ∧
    (r5 ∈ df ∧ Df.key r5 = ("X", jan05) ∧ Df.price r5 = Num 7).
Proof.
  evar (df : list Df.row).
  assert (format_transactions to_numeric_ex quote7 ledger_prices = Ok df)
    as Hdf by (vm_compute; reflexivity).
  destruct (effective_price_resolution to_numeric_ex quote7 ledger_prices
              df "X" jan02 [qte 1; prc (SNum 3)] Hdf)
    as (r2 & Hin2 & Hk2 & _ & Hnum2 & _ & _);
    [eexists; split; vm_compute; reflexivity|].
  destruct (effective_price_resolution to_numeric_ex quote7 ledger_prices
              df "X" jan03 [qte 1; prc (SStr "5.0")] Hdf)
    as (r3 & Hin3 & Hk3 & _ & _ & Hstr3 & _);
    [eexists; split; vm_compute; reflexivity|].
  destruct (effective_price_resolution to_numeric_ex quote7 ledger_prices
              df "X" jan04 [qte 1; prc (SStr "n/a")] Hdf)
    as (r4 & Hin4 & Hk4 & _ & _ & _ & Hm4);
    [eexists; split; vm_compute; reflexivity|].
  destruct (effective_price_resolution to_numeric_ex quote7 ledger_prices
              df "X" jan05 [qte 1] Hdf)
    as (r5 & Hin5 & Hk5 & _ & _ & _ & Hm5);
    [eexists; split; vm_compute; reflexivity|].
  exists df, r2, r3, r4, r5. split; [exact Hdf|].
  split; [split; [exact Hin2|split; [exact Hk2|]]|].
  { apply (Hnum2 [qte 1] (prc (SNum 3)) [] 3%Q);
      [reflexivity|repeat constructor|reflexivity]. }
  split; [split; [exact Hin3|split; [exact Hk3|]]|].
  { apply (Hstr3 [qte 1] (prc (SStr "5.0")) [] "5.0");
      [reflexivity|repeat constructor|reflexivity|vm_compute; discriminate]. }
  split; [split; [exact Hin4|split; [exact Hk4|]]
         |split; [exact Hin5|split; [exact Hk5|]]].
  - apply Hm4; [right|vm_compute; reflexivity].
    exists [qte 1], (prc (SStr "n/a")), [], "n/a".
    split; [reflexivity|]. split; [repeat constructor|].
    split; [reflexivity|vm_compute; reflexivity].
  - apply Hm5; [left; repeat constructor|vm_compute; reflexivity].
Defined.

Section reconstruction_claims.
Variable to_numeric : string → cell.
Variable yf_close : string → Z → option cell.
Variable market : list Px.row.
Variable today : Z.

Local Abbreviation format_transactions :=
  (format_transactions to_numeric yf_close).
Local Abbreviation fetch_hist_data := (fetch_hist_data market today).
Local Abbreviation run := (run to_numeric yf_close market today).

(** C1, as the code has it: the output has exactly one row for each row
    of the downloaded close-price table, with the same (ticker, date)
    and in the same order; the calendar grid is the right side of a left
    merge and adds no row. *)
Theorem output_rows_are_price_rows df p :
  Hist.key <$> fetch_hist_data df p =
    Px.key <$> download market (map_to_list p).*1 start_date.
Proof.
  rewrite fetch_hist_data_rows, <-list_fmap_compose.
  by apply list_fmap_ext.
Qed.

(** C2: on every row of the final table whose close is unavailable,
    [spending_stock], [invested_cash_stock], [valuation], [balance] and
    [profit_rate] are unavailable. *)
Theorem masking_law p out o :
  run p = Ok out → o ∈ out → Hist.close o = NaN →
  Hist.spending_stock o = NaN ∧ Hist.invested_cash_stock o = NaN ∧
  Hist.valuation o = NaN ∧ Hist.balance o = NaN ∧
  Hist.profit_rate o = NaN.
Proof.
  intros (df & _ & ->)%run_inv (h & _ & ->)%elem_of_fetch_hist_data Hc.
  rewrite mask_derive_close in Hc. simpl in Hc.
  unfold mask, derive. simpl. rewrite Hc. simpl.
  rewrite cell_mul_na_r, cell_sub_na_l, cell_div_na_l. done.
Qed.

(** C6, as the code has it: [profit_rate] is unavailable wherever
    [invested_cash_stock] is unavailable; where it is zero the quotient
    is the IEEE one, unavailable when [balance] is zero or unavailable
    and an infinity of the sign of [balance] otherwise. *)
Theorem profit_rate_division p out o :
  run p = Ok out → o ∈ out →
  (Hist.invested_cash_stock o = NaN → Hist.profit_rate o = NaN) ∧
  (∀ q, Hist.invested_cash_stock o = Num q → Qnum q = 0 →
     Hist.profit_rate o = signed_inf (cell_sgn (Hist.balance o))).
Proof.
  intros (df & _ & ->)%run_inv (h & _ & ->)%elem_of_fetch_hist_data.
  unfold mask, derive. simpl.
  destruct (Px.close h) as [c| | |] eqn:Hc; simpl.
  4: { rewrite cell_mul_na_r, cell_sub_na_l, cell_div_na_l. done. }
  all: split; [intros ->; apply cell_div_na_r|].
  all: intros q -> Hq; by apply cell_div_zero.
Qed.

(** C7, at the failing input: on the empty ledger the run raises
    [KeyError] in [format_transactions]. *)
Theorem empty_ledger_raises :
  format_transactions ∅ = Raise (KeyError "ticker") ∧
  run ∅ = Raise (KeyError "ticker").
Proof.
  unfold run, format_transactions, records.
  by rewrite map_to_list_empty.
Qed.
End reconstruction_claims.

(** Row [i] of a computed table. *)
Ltac row i := apply list_elem_of_lookup; exists i; reflexivity.

(** C1, counterexample: a buy on Thursday 2020-01-02, today Monday
    2020-01-06; the provider has no row for Saturday 2020-01-04 and the
    output has none either. *)
Lemma grid_not_complete :
  ¬ grid_complete to_numeric_ex no_quote market_weekdays jan06 ledger_one_buy.
Proof.
  intros H. evar (df : list Df.row).
  assert (format_transactions to_numeric_ex no_quote ledger_one_buy = Ok df)
    as Hdf by (vm_compute; reflexivity).
  destruct (H df "X" jan04 Hdf) as [o Ho].
  - eexists. split; [row 0%nat|reflexivity].
  - vm_compute. split; discriminate.
  - vm_compute in Ho. discriminate Ho.
Qed.

Lemma masking_law_witness :
  ∃ out o,
    run to_numeric_ex no_quote market_weekdays jan06 ledger_one_buy = Ok out ∧
    o ∈ out ∧ Hist.key o = ("X", jan03) ∧ Hist.close o = NaN ∧
    Hist.spending_stock o = NaN ∧ Hist.invested_cash_stock o = NaN ∧
    Hist.valuation o = NaN ∧ Hist.balance o = NaN ∧ Hist.profit_rate o = NaN.
Proof.
  eexists _, _. split; [vm_compute; reflexivity|].
  split; [row 1%nat|]. do 2 (split; [reflexivity|]).
  eapply (masking_law to_numeric_ex no_quote market_weekdays jan06
            ledger_one_buy).
  - vm_compute. reflexivity.
  - row 1%nat.
  - reflexivity.
Defined.

(** C6, counterexample: ten shares received at price 0 and a close of 6
    give an invested cash of 0 and an infinite profit rate. *)
Lemma profit_rate_not_guarded :
  ¬ profit_rate_guarded to_numeric_ex no_quote market_weekdays jan06
      ledger_free_shares.
Proof.
  intros H. evar (out : list Hist.row).
  assert (run to_numeric_ex no_quote market_weekdays jan06 ledger_free_shares
            = Ok out) as Hout by (vm_compute; reflexivity).
  evar (o : Hist.row).
  assert (o ∈ out) as Ho by (subst o out; row 0%nat).
  assert (Hist.profit_rate o = NaN) as Hnan.
  { apply (H out o Hout Ho). right. exists 0%Q. split; reflexivity. }
  vm_compute in Hnan. discriminate Hnan.
Qed.

Lemma profit_rate_division_witness :
  ∃ out o,
    run to_numeric_ex no_quote market_weekdays jan06 ledger_free_shares
      = Ok out ∧
    o ∈ out ∧ Hist.invested_cash_stock o = Num 0 ∧ Hist.profit_rate o = PInf.
Proof.
  eexists _, _. split; [vm_compute; reflexivity|].
  split; [row 0%nat|]. split; [reflexivity|].
  eapply (profit_rate_division to_numeric_ex no_quote market_weekdays jan06
            ledger_free_shares).
  - vm_compute. reflexivity.
  - row 0%nat.
  - reflexivity.
  - reflexivity.
Defined.

Section series_claims.
Variable to_numeric : string → cell.
Variable yf_close : string → Z → option cell.
Variable market : list Px.row.
Variable today : Z.

Local Abbreviation format_transactions :=
  (format_transactions to_numeric yf_close).
Local Abbreviation fetch_hist_data := (fetch_hist_data market today).
Local Abbreviation run := (run to_numeric yf_close market today).

(** C8, as the code has it: a tracked ticker has one row of [full_df]
    on every grid day. Before the ticker's first transaction
    [quantity_stock] is 0 and [spending_stock] and
    [invested_cash_stock] are unavailable. In general each of the three
    is forward-filled from the nearest transaction, dated within the
    grid and on or before the day, where that column is available
    ([quantity_stock] then filled with 0 when there is none). *)
Theorem expanded_series_fill p df t d :
  format_transactions p = Ok df → tracked df t →
  start_date ≤ d ≤ today →
  ∃ fr,
    fr ∈ full_df today df ∧ Full.key fr = (t, d) ∧
    (∀ fr', fr' ∈ full_df today df → Full.key fr' = (t, d) → fr' = fr) ∧
    ((∀ r, r ∈ df → Df.ticker r = t → d < Df.date r) →
       Full.quantity_stock fr = Num 0 ∧ Full.spending_stock fr = NaN ∧
       Full.invested_cash_stock fr = NaN) ∧
    (∃ v, filled_from Df.quantity_stock df t d v ∧
          Full.quantity_stock fr = fillna0 v) ∧
    filled_from Df.spending_stock df t d (Full.spending_stock fr) ∧
    filled_from Df.invested_cash_stock df t d (Full.invested_cash_stock fr).
Proof.
  intros Hdf Ht Hd. pose proof (NoDup_df_keys _ _ _ _ Hdf) as Hnd.
  assert (∀ col, filled_from col df t d
            (ffill_to (λ d', loc col df (t, d')) d)) as Hfill.
  { intros col. split.
    - intros r Hr Htr Hdr Hcol Hlater. by apply ffill_loc_last.
    - intros Hna. apply ffill_loc_none. intros r Hr Htr Hdr.
      apply Hna; [done..|lia]. }
  exists (expanded df t d). split_and!.
  - by apply elem_of_full_df.
  - done.
  - intros fr' (_ & _ & ->)%elem_of_full_df [= <- <-]. done.
  - intros Hfirst. unfold expanded. simpl.
    rewrite !ffill_loc_none; [done|..].
    all: intros r Hr Htr Hdr; specialize (Hfirst r Hr Htr); lia.
  - eexists. split; [apply Hfill|done].
  - apply Hfill.
  - apply Hfill.
Qed.

(** C9: in the final table the [quantity_stock] of a ticker is the same
    on any two of its rows, dated up to today, between which the ticker
    has no transaction, so it is constant (hence not decreasing) from
    one transaction date to the day before the next; and on a
    transaction date whose entry carries a quantity it is the sum of
    the ticker's quantity flows dated up to and including that date. *)
Theorem quantity_stock_prefix_sum p df out :
  format_transactions p = Ok df → run p = Ok out →
  (∀ o1 o2, o1 ∈ out → o2 ∈ out →
     Hist.ticker o1 = Hist.ticker o2 →
     Hist.date o1 ≤ Hist.date o2 ≤ today →
     (∀ r, r ∈ df → Df.ticker r = Hist.ticker o1 →
           ¬ (Hist.date o1 < Df.date r ≤ Hist.date o2)) →
     Hist.quantity_stock o1 = Hist.quantity_stock o2) ∧
  (∀ o r, o ∈ out → r ∈ df → Df.key r = Hist.key o →
     Hist.date o ≤ today → Df.quantity_flow r ≠ NaN →
     Hist.quantity_stock o =
       Num (Qred (nansum (flows_upto df (Hist.ticker o) (Hist.date o))))).
Proof.
  intros Hdf (df' & Hdf' & ->)%run_inv.
  rewrite Hdf in Hdf'. injection Hdf' as <-.
  pose proof (NoDup_df_keys _ _ _ _ Hdf) as Hnd.
  split.
  - intros o1 o2 (h1 & Hh1 & ->)%elem_of_fetch_hist_data
      (h2 & Hh2 & ->)%elem_of_fetch_hist_data Ht Hd Hnone.
    apply elem_of_download in Hh1 as (_ & _ & Hs1).
    cbn [Hist.ticker Hist.date mask derive fst snd] in Ht, Hd, Hnone.
    cbn [Hist.quantity_stock mask derive fst snd].
    unfold grid_row, Px.key. cbn [fst snd]. rewrite <-Ht.
    destruct (decide (Px.ticker h1 ∈ Df.ticker <$> df)) as [Hin|Hin].
    + rewrite !decide_True by (split; [done|lia]).
      unfold expanded. cbn [from_option Full.quantity_stock]. f_equal.
      symmetry. apply ffill_to_extend; [lia|].
      intros d' Hd'. destruct (loc_cases Df.quantity_stock df (Px.ticker h1, d'))
        as [->|(r & Hr & [= Htr Hdr] & _)]; [done|].
      destruct (Hnone r Hr Htr). lia.
    + rewrite !decide_False by (by intros [? _]). done.
  - intros o r (h & Hh & ->)%elem_of_fetch_hist_data Hr Hk Hd Hflow.
    apply elem_of_download in Hh as (_ & _ & Hs).
    cbn [Hist.ticker Hist.date Hist.key mask derive fst snd] in Hk, Hd |- *.
    injection Hk as Htr Hdr.
    cbn [Hist.quantity_stock mask derive fst snd].
    unfold Px.key.
    rewrite grid_row_Some by (by (eexists; eauto) || (simpl; lia)).
    unfold expanded. cbn [from_option Full.quantity_stock].
    pose proof (quantity_stock_nansum _ _ _ _ _ Hdf Hr) as Hqs.
    apply isna_false in Hflow. rewrite Hflow, Htr, Hdr in Hqs.
    rewrite (ffill_loc_last Df.quantity_stock df _ _ r Hnd Hr Htr);
      [by rewrite Hqs| lia | by rewrite Hqs | intros; lia].
Qed.

End series_claims.

(** C8, counterexample: the buy of 2020-01-03 has no price, its
    [spending_stock] is unavailable, and the grid row of that day shows
    the 50 of the buy of the day before. *)
Lemma not_filled_from_nearest :
  ¬ filled_from_nearest to_numeric_ex no_quote jan06 ledger_unpriced.
Proof.
  intros H. evar (df : list Df.row).
  assert (format_transactions to_numeric_ex no_quote ledger_unpriced = Ok df)
    as Hdf by (vm_compute; reflexivity).
  evar (r : Df.row).
  assert (r ∈ df) as Hr by (subst r df; row 1%nat).
  destruct (H df "X" jan03 r (Full.Row "X" jan03 (Num 15) (Num 50) (Num 50))
              Hdf Hr) as (_ & Hss & _).
  - reflexivity.
  - reflexivity.
  - intros r' _ _ Hd. exact Hd.
  - apply list_elem_of_lookup. exists 2%nat. vm_compute. reflexivity.
  - reflexivity.
  - vm_compute in Hss. discriminate Hss.
Qed.

Lemma expanded_series_fill_witness :
  ∃ df fr,
    format_transactions to_numeric_ex no_quote ledger_unpriced = Ok df ∧
    fr ∈ full_df jan06 df ∧ Full.key fr = ("X", start_date) ∧
    Full.quantity_stock fr = Num 0 ∧ Full.spending_stock fr = NaN ∧
    Full.invested_cash_stock fr = NaN.
Proof.
  evar (df : list Df.row).
  assert (format_transactions to_numeric_ex no_quote ledger_unpriced = Ok df)
    as Hdf by (vm_compute; reflexivity).
  destruct (expanded_series_fill to_numeric_ex no_quote jan06 ledger_unpriced
              df "X" start_date Hdf)
    as (fr & Hin & Hk & _ & Hfirst & _).
  - eexists. split; [subst df; row 0%nat|reflexivity].
  - vm_compute. split; discriminate.
  - exists df, fr. split; [exact Hdf|]. split; [exact Hin|].
    split; [exact Hk|]. apply Hfirst. intros r Hr _. subst df.
    apply list_elem_of_lookup in Hr as [i Hi].
    destruct i as [|[|i]]; simpl in Hi;
      [injection Hi as <-; vm_compute; reflexivity..|discriminate Hi].
Defined.

Lemma quantity_stock_prefix_sum_witness :
  ∃ df out o,
    format_transactions to_numeric_ex no_quote ledger_unpriced = Ok df ∧
    run to_numeric_ex no_quote market_weekdays jan06 ledger_unpriced = Ok out ∧
    o ∈ out ∧ Hist.key o = ("X", jan03) ∧ Hist.quantity_stock o = Num 15.
Proof.
  evar (df : list Df.row).
  assert (format_transactions to_numeric_ex no_quote ledger_unpriced = Ok df)
    as Hdf by (vm_compute; reflexivity).
  evar (out : list Hist.row).
  assert (run to_numeric_ex no_quote market_weekdays jan06 ledger_unpriced
            = Ok out) as Hout by (vm_compute; reflexivity).
  evar (o : Hist.row).
  assert (o ∈ out) as Ho by (subst o out; row 1%nat).
  evar (r : Df.row).
  assert (r ∈ df) as Hr by (subst r df; row 1%nat).
  destruct (quantity_stock_prefix_sum to_numeric_ex no_quote market_weekdays
              jan06 ledger_unpriced df out Hdf Hout) as [_ Hsum].
  exists df, out, o. split; [exact Hdf|]. split; [exact Hout|].
  split; [exact Ho|]. split; [reflexivity|].
  rewrite (Hsum o r Ho Hr eq_refl); [vm_compute; reflexivity| |].
  - vm_compute. discriminate.
  - discriminate.
Defined.


(** * Further properties of the pipeline *)

Section normalizer_properties.
Variable to_numeric : string → cell.
Variable yf_close : string → Z → option cell.

Local Abbreviation records := (records to_numeric yf_close).
Local Abbreviation format_transactions :=
  (format_transactions to_numeric yf_close).

(** X1: the frame of [format_transactions] holds the ledger's entries,
    one row for each (ticker, date) and no other, in ascending order of
    (ticker, date). *)
Theorem frame_sorted_by_ticker_date p df :
  format_transactions p = Ok df →
  StronglySorted key_le (Df.key <$> df) ∧
  NoDup (Df.key <$> df) ∧
  ∀ t d, (t, d) ∈ Df.key <$> df ↔ ∃ details, entry p t d details.
Proof.
  intros Hdf. split_and!.
  - apply format_transactions_inv in Hdf as ->. rewrite resolve_keys.
    apply (StronglySorted_fmap _ rec_le); [done|apply sort_values_sorted].
  - by eapply NoDup_df_keys.
  - intros t d. split.
    + intros (r & [= -> ->] & Hr)%list_elem_of_fmap.
      destruct (format_row_inv _ _ _ _ _ Hdf Hr) as (details & _ & He & _).
      eauto.
    + intros [details He].
      destruct (format_row to_numeric yf_close _ _ _ _ _ Hdf He)
        as (i & r & _ & -> & Hin & _).
      apply list_elem_of_fmap. eexists. split; [|exact Hin]. done.
Qed.

(** X2: [format_transactions] raises [KeyError] on the label ["ticker"]
    exactly when the ledger has no transaction at all: no ticker, or
    tickers with empty date maps only. *)
Theorem format_transactions_raises_iff p :
  format_transactions p = Raise (KeyError "ticker") ↔
    ∀ t d details, ¬ entry p t d details.
Proof.
  assert (records p = [] ↔ ∀ t d details, ¬ entry p t d details) as Hnil.
  { split.
    - intros Hr t d details He.
      assert (record_of to_numeric yf_close t d details ∈ records p) as Hin
        by (apply elem_of_records; eauto 10).
      rewrite Hr in Hin. by apply elem_of_nil in Hin.
    - intros Hno. destruct (records p) as [|r rs] eqn:Hr; [done|].
      assert (r ∈ records p) as Hin by (rewrite Hr; left).
      apply elem_of_records in Hin as (t & d & details & He & _).
      by destruct (Hno t d details). }
  rewrite <-Hnil. unfold format_transactions.
  destruct (records p); [done|]. repeat case_match; split; done.
Qed.

(** X13: the three ways [format_transactions] ends on a ledger that has
    a transaction. It raises [TypeError] on [quantity_flow] exactly when
    no entry holds a quantity record, [TypeError] on [spending_flow]
    exactly when some entry holds a quantity record and none a price
    record, and it returns a frame exactly when some entry holds a
    quantity record and some entry a price record. *)
Theorem format_transactions_outcome p :
  (format_transactions p = Raise (TypeError "quantity_flow") ↔
     (∃ t d details, entry p t d details) ∧ ¬ has_quantity p) ∧
  (format_transactions p = Raise (TypeError "spending_flow") ↔
     has_quantity p ∧ ¬ declares_price p) ∧
  ((∃ df, format_transactions p = Ok df) ↔
     has_quantity p ∧ declares_price p).
Proof.
  assert (records p ≠ [] ↔ ∃ t d details, entry p t d details) as Hent.
  { split.
    - destruct (records p) as [|r0 rs] eqn:Hr; [done|]. intros _.
      assert (r0 ∈ records p) as Hin by (rewrite Hr; left).
      apply elem_of_records in Hin as (t & d & details & He & _). eauto.
    - intros (t & d & details & He) Hr.
      assert (record_of to_numeric yf_close t d details ∈ records p) as Hin
        by (apply elem_of_records; eauto 10).
      rewrite Hr in Hin. by apply elem_of_nil in Hin. }
  rewrite <-Hent.
  rewrite <-(quantity_column_numeric to_numeric yf_close p).
  rewrite <-(price_column_numeric to_numeric yf_close p).
  unfold format_transactions.
  destruct (records p) as [|r0 rs]; [naive_solver|].
  destruct (object_dtype Rec.quantity_flow (r0 :: rs)),
    (object_dtype Rec.price (r0 :: rs)); naive_solver.
Qed.

(** On a ledger that declares no price the provider's quote is not
    used: the run stops on the sum of [spending_flow]. *)
Example never_priced_ledger_raises :
  format_transactions ledger_never_priced =
    Raise (TypeError "spending_flow").
Proof. vm_compute. reflexivity. Qed.

(** On a ledger without any quantity the run stops on the sum of
    [quantity_flow]. *)
Example no_quantities_ledger_raises :
  format_transactions ledger_no_quantities =
    Raise (TypeError "quantity_flow").
Proof. vm_compute. reflexivity. Qed.

(** X4: when the prices of a ticker are finite or unavailable up to a
    row's date, the row's [spending_stock] and [invested_cash_stock] are
    unavailable with their flow and else the exact sum of the ticker's
    available flows dated up to the row: an unavailable flow leaves a gap
    on its own row and is skipped by the later sums. *)
Theorem money_stocks_are_prefix_sums p df r :
  format_transactions p = Ok df → r ∈ df →
  (∀ r', r' ∈ df → Df.ticker r' = Df.ticker r → Df.date r' ≤ Df.date r →
         finite_or_na (Df.price r')) →
  Df.spending_stock r =
    (if isna (Df.spending_flow r) then NaN
     else Num (Qred (nansum
            (column_upto Df.spending_flow df (Df.ticker r) (Df.date r))))) ∧
  Df.invested_cash_stock r =
    (if isna (Df.invested_cash_flow r) then NaN
     else Num (Qred (nansum
            (column_upto Df.invested_cash_flow df (Df.ticker r)
               (Df.date r))))).
Proof. apply money_stocks_nansum. Qed.
(** X10: invested cash never decreases. When the prices of a ticker,
    up to the later of two of its rows, are unavailable or not negative,
    the [invested_cash_stock] of the earlier row (where available) is at
    most that of the later one: sales and unpriced entries add nothing. *)
Theorem invested_cash_never_decreases p df r1 r2 :
  format_transactions p = Ok df → r1 ∈ df → r2 ∈ df →
  Df.ticker r1 = Df.ticker r2 → Df.date r1 ≤ Df.date r2 →
  (∀ r', r' ∈ df → Df.ticker r' = Df.ticker r2 → Df.date r' ≤ Df.date r2 →
         nonneg_or_na (Df.price r')) →
  Df.invested_cash_flow r1 ≠ NaN → Df.invested_cash_flow r2 ≠ NaN →
  ∃ a b, Df.invested_cash_stock r1 = Num a ∧
         Df.invested_cash_stock r2 = Num b ∧ (a <= b)%Q.
Proof.
  intros Hdf Hr1 Hr2 Ht Hd Hprice Hf1%isna_false Hf2%isna_false.
  destruct (money_stocks_nansum _ _ _ _ _ Hdf Hr1) as [_ H1].
  { intros r' Hr' Ht' Hd'. apply nonneg_finite, Hprice; [done|congruence|lia]. }
  destruct (money_stocks_nansum _ _ _ _ _ Hdf Hr2) as [_ H2].
  { intros r' Hr' Ht' Hd'. by apply nonneg_finite, Hprice. }
  rewrite Hf1 in H1. rewrite Hf2 in H2.
  eexists _, _. split; [exact H1|]. split; [exact H2|].
  rewrite !Qred_correct. unfold column_upto. rewrite Ht.
  apply nansum_filter_mono.
  - intros x [? ?]. split; [done|lia].
  - intros x Hx [Htx Hdx].
    destruct (format_row_inv _ _ _ _ _ Hdf Hx) as (details & i & _ & _ & Hres).
    set (rec := record_of _ _ _ _ _) in Hres.
    assert (Df.invested_cash_flow x = invested_cash_flow_of rec ∧
            Df.price x = price_of rec) as [-> Hp] by (by rewrite Hres).
    apply invested_cash_flow_nonneg; [apply finite_or_na_quantity_flow|].
    rewrite <-Hp. by apply Hprice.
Qed.
(** X11: tickers are independent. Two ledgers that agree on the
    transactions of ticker [t] give the same rows for [t], whatever their
    other tickers are. *)
Theorem ticker_rows_independent (p1 p2 : ledger) df1 df2 t :
  p1 !! t = p2 !! t →
  format_transactions p1 = Ok df1 → format_transactions p2 = Ok df2 →
  filter (λ r, Df.ticker r = t) df1 = filter (λ r, Df.ticker r = t) df2.
Proof.
  intros Hp ->%format_transactions_inv ->%format_transactions_inv.
  rewrite !resolve_ticker_rows
    by (apply sort_values_sorted || apply NoDup_sorted_keys).
  by rewrite (ticker_records _ _ p1 p2 t Hp).
Qed.
End normalizer_properties.

Lemma frame_sorted_by_ticker_date_witness :
  ∃ df,
    format_transactions to_numeric_ex no_quote ledger_unpriced = Ok df ∧
    Df.key <$> df = [("X", jan02); ("X", jan03)] ∧
    StronglySorted key_le (Df.key <$> df).
Proof.
  evar (df : list Df.row).
  assert (format_transactions to_numeric_ex no_quote ledger_unpriced = Ok df)
    as Hdf by (vm_compute; reflexivity).
  exists df. split; [exact Hdf|]. split; [reflexivity|].
  apply (frame_sorted_by_ticker_date to_numeric_ex no_quote ledger_unpriced
           df Hdf).
Defined.

Section reconstruction_properties.
Variable to_numeric : string → cell.
Variable yf_close : string → Z → option cell.
Variable market : list Px.row.
Variable today : Z.

Local Abbreviation format_transactions :=
  (format_transactions to_numeric yf_close).
Local Abbreviation fetch_hist_data := (fetch_hist_data market today).
Local Abbreviation run := (run to_numeric yf_close market today).

(** X5: [full_df] is the dense grid: its labels are pairwise distinct, a
    label (t, d) is present exactly when [t] has a row in the frame and
    [d] lies between [start_date] and today, and the number of rows is
    the number of distinct tickers times the number of days (none when
    today is before [start_date]). *)
Theorem full_df_row_space df :
  NoDup (Full.key <$> full_df today df) ∧
  (∀ t d, (t, d) ∈ Full.key <$> full_df today df ↔
            tracked df t ∧ start_date ≤ d ≤ today) ∧
  length (full_df today df) =
    (length (unique (Df.ticker <$> df)) *
     Z.to_nat (today - start_date + 1))%nat.
Proof.
  split_and!.
  - apply NoDup_full_df_keys.
  - intros t d. rewrite full_df_keys. apply elem_of_multi_index.
  - rewrite length_full_df. unfold multi_index, date_range.
    by rewrite length_from_product, length_seqZ.
Qed.

(** X6: an output row whose ticker has no row in the frame, or whose
    date is after today, finds no row of [full_df] in the left merge:
    its three aggregates and its three derived values are unavailable. *)
Theorem unmatched_row_unavailable df p o :
  o ∈ fetch_hist_data df p →
  ¬ tracked df (Hist.ticker o) ∨ today < Hist.date o →
  Hist.quantity_stock o = NaN ∧ Hist.spending_stock o = NaN ∧
  Hist.invested_cash_stock o = NaN ∧ Hist.valuation o = NaN ∧
  Hist.balance o = NaN ∧ Hist.profit_rate o = NaN.
Proof.
  intros (h & _ & ->)%elem_of_fetch_hist_data Hout.
  cbn [Hist.ticker Hist.date mask derive fst snd] in Hout.
  assert (grid_row today df (Px.key h) = None) as Hnone.
  { unfold grid_row, Px.key. cbn [fst snd]. apply decide_False.
    intros [Ht%tracked_elem_of Hd]. destruct Hout; [done|lia]. }
  unfold mask, derive. cbn [fst snd]. rewrite Hnone. simpl.
  unfold where_. by destruct (negb _).
Qed.

(** X7: an output row of a ticker of the frame, dated up to today, carries
    the [quantity_stock] of the row of [full_df] of its (ticker, date),
    and, when its close is available, that row's [spending_stock] and
    [invested_cash_stock]; its derived values are computed from the
    values of that row before masking. *)
Theorem output_row_of_grid df p o :
  o ∈ fetch_hist_data df p → tracked df (Hist.ticker o) →
  Hist.date o ≤ today →
  ∃ fr,
    fr ∈ full_df today df ∧ Full.key fr = Hist.key o ∧
    Hist.quantity_stock o = Full.quantity_stock fr ∧
    (Hist.close o ≠ NaN →
       Hist.spending_stock o = Full.spending_stock fr ∧
       Hist.invested_cash_stock o = Full.invested_cash_stock fr) ∧
    Hist.valuation o = cell_mul (Full.quantity_stock fr) (Hist.close o) ∧
    Hist.balance o = cell_sub (Hist.valuation o) (Full.spending_stock fr) ∧
    Hist.profit_rate o =
      cell_div (Hist.balance o) (Full.invested_cash_stock fr).
Proof.
  intros (h & Hh & ->)%elem_of_fetch_hist_data Ht Hd.
  apply elem_of_download in Hh as (_ & _ & Hs).
  cbn [Hist.ticker Hist.date mask derive fst snd] in Ht, Hd.
  exists (expanded df (Px.ticker h) (Px.date h)). split_and!.
  - apply elem_of_full_df. split; [done|]. split; [simpl; lia|done].
  - done.
  - unfold mask, derive, Px.key. cbn [fst snd].
    rewrite grid_row_Some by (done || lia). done.
  - intros Hc%isna_false. unfold mask, derive, Px.key in *.
    cbn [fst snd Hist.close] in *.
    rewrite grid_row_Some by (done || lia). simpl. by rewrite Hc.
  - unfold mask, derive, Px.key. cbn [fst snd].
    rewrite grid_row_Some by (done || lia). done.
  - unfold mask, derive, Px.key. cbn [fst snd].
    rewrite grid_row_Some by (done || lia). done.
  - unfold mask, derive, Px.key. cbn [fst snd].
    rewrite grid_row_Some by (done || lia). done.
Qed.

(** X8: on an output row dated before every transaction of its ticker,
    with a finite close, the valuation is 0 while [spending_stock],
    [invested_cash_stock], [balance] and [profit_rate] are unavailable. *)
Theorem before_first_transaction p out o d details c :
  run p = Ok out → o ∈ out →
  entry p (Hist.ticker o) d details → Hist.date o ≤ today →
  (∀ d' details', entry p (Hist.ticker o) d' details' → Hist.date o < d') →
  Hist.close o = Num c →
  Hist.valuation o = Num 0 ∧ Hist.spending_stock o = NaN ∧
  Hist.invested_cash_stock o = NaN ∧ Hist.balance o = NaN ∧
  Hist.profit_rate o = NaN.
Proof.
  intros (df & Hdf & ->)%run_inv (h & Hh & ->)%elem_of_fetch_hist_data
    He Hd Hfirst Hc.
  apply elem_of_download in Hh as (_ & _ & Hs).
  cbn [Hist.ticker Hist.date Hist.close mask derive fst snd] in He, Hd, Hfirst, Hc.
  pose proof (entry_tracked _ _ _ _ _ _ _ Hdf He) as Ht.
  assert (∀ col, ffill_to (λ d', loc col df (Px.ticker h, d')) (Px.date h)
                 = NaN) as Hna.
  { intros col. apply ffill_loc_none. intros r Hr Htr Hdr.
    destruct (format_row_inv _ _ _ _ _ Hdf Hr) as (details' & _ & He' & _).
    rewrite Htr in He'. specialize (Hfirst _ _ He'). lia. }
  unfold mask, derive, Px.key. cbn [fst snd].
  rewrite grid_row_Some by (done || lia).
  unfold expanded. simpl. rewrite !Hna, Hc. simpl.
  destruct c as [n m]. split_and!; reflexivity.
Qed.
(** X12: between transactions the money aggregates stand still. On two
    output rows of one ticker, dated up to today, whose closes are
    available and between which the ticker has no transaction,
    [spending_stock] and [invested_cash_stock] are the same. *)
Theorem money_stocks_constant_between_transactions df p o1 o2 :
  o1 ∈ fetch_hist_data df p → o2 ∈ fetch_hist_data df p →
  Hist.ticker o1 = Hist.ticker o2 →
  Hist.date o1 ≤ Hist.date o2 ≤ today →
  (∀ r, r ∈ df → Df.ticker r = Hist.ticker o1 →
        ¬ (Hist.date o1 < Df.date r ≤ Hist.date o2)) →
  Hist.close o1 ≠ NaN → Hist.close o2 ≠ NaN →
  Hist.spending_stock o1 = Hist.spending_stock o2 ∧
  Hist.invested_cash_stock o1 = Hist.invested_cash_stock o2.
Proof.
  intros (h1 & Hh1 & ->)%elem_of_fetch_hist_data
    (h2 & Hh2 & ->)%elem_of_fetch_hist_data Ht Hd Hnone
    Hc1%isna_false Hc2%isna_false.
  apply elem_of_download in Hh1 as (_ & _ & Hs1).
  cbn [Hist.ticker Hist.date Hist.close mask derive fst snd]
    in Ht, Hd, Hnone, Hc1, Hc2.
  unfold mask, derive, grid_row, Px.key.
  cbn [fst snd Hist.close Hist.spending_stock Hist.invested_cash_stock].
  rewrite Hc1, Hc2, <-Ht. simpl.
  assert (∀ col,
    ffill_to (λ d', loc col df (Px.ticker h1, d')) (Px.date h2) =
    ffill_to (λ d', loc col df (Px.ticker h1, d')) (Px.date h1)) as Hsame.
  { intros col. apply ffill_to_extend; [lia|].
    intros d' Hd'. destruct (loc_cases col df (Px.ticker h1, d'))
      as [->|(r & Hr & [= Htr Hdr] & _)]; [done|].
    destruct (Hnone r Hr Htr). lia. }
  destruct (decide (Px.ticker h1 ∈ Df.ticker <$> df)) as [Hin|Hin].
  - rewrite !decide_True by (split; [done|lia]).
    unfold expanded. simpl. by rewrite !Hsame.
  - rewrite !decide_False by (by intros [? _]). done.
Qed.
End reconstruction_properties.



Lemma money_stocks_are_prefix_sums_witness :
  ∃ df r,
    format_transactions to_numeric_ex no_quote ledger_buy_sell = Ok df ∧
    r ∈ df ∧ Df.key r = ("X", jan03) ∧
    Df.spending_stock r = Num 26 ∧ Df.invested_cash_stock r = Num 50.
Proof.
  evar (df : list Df.row).
  assert (format_transactions to_numeric_ex no_quote ledger_buy_sell = Ok df)
    as Hdf by (vm_compute; reflexivity).
  evar (r : Df.row).
  assert (r ∈ df) as Hr by (subst r df; row 1%nat).
  exists df, r. split; [exact Hdf|]. split; [exact Hr|].
  split; [reflexivity|].
  destruct (money_stocks_are_prefix_sums to_numeric_ex no_quote
              ledger_buy_sell df r Hdf Hr) as [Hs Hi].
  - intros r' Hr' _ _. subst df.
    apply list_elem_of_lookup in Hr' as [i Hi].
    destruct i as [|[|i]]; simpl in Hi;
      [injection Hi as <-; exact I..|discriminate Hi].
  - split; [rewrite Hs|rewrite Hi]; vm_compute; reflexivity.
Defined.

Lemma unmatched_row_unavailable_witness :
  ∃ df o,
    format_transactions to_numeric_ex no_quote ledger_one_buy = Ok df ∧
    o ∈ fetch_hist_data market_weekdays jan03 df ledger_one_buy ∧
    Hist.key o = ("X", jan06) ∧ Hist.close o = Num 7 ∧
    Hist.quantity_stock o = NaN ∧ Hist.valuation o = NaN.
Proof.
  evar (df : list Df.row).
  assert (format_transactions to_numeric_ex no_quote ledger_one_buy = Ok df)
    as Hdf by (vm_compute; reflexivity).
  evar (o : Hist.row).
  assert (o ∈ fetch_hist_data market_weekdays jan03 df ledger_one_buy) as Ho.
  { subst o df. apply list_elem_of_lookup. exists 2%nat.
    vm_compute. reflexivity. }
  exists df, o. split; [exact Hdf|]. split; [exact Ho|].
  do 2 (split; [reflexivity|]).
  destruct (unmatched_row_unavailable market_weekdays jan03 df ledger_one_buy
              o Ho) as (Hq & _ & _ & Hv & _).
  - right. vm_compute. reflexivity.
  - split; [exact Hq|exact Hv].
Defined.

Lemma output_row_of_grid_witness :
  ∃ df o fr,
    format_transactions to_numeric_ex no_quote ledger_one_buy = Ok df ∧
    o ∈ fetch_hist_data market_weekdays jan06 df ledger_one_buy ∧
    Hist.key o = ("X", jan02) ∧
    fr ∈ full_df jan06 df ∧ Full.key fr = Hist.key o ∧
    Hist.quantity_stock o = Full.quantity_stock fr.
Proof.
  evar (df : list Df.row).
  assert (format_transactions to_numeric_ex no_quote ledger_one_buy = Ok df)
    as Hdf by (vm_compute; reflexivity).
  evar (o : Hist.row).
  assert (o ∈ fetch_hist_data market_weekdays jan06 df ledger_one_buy) as Ho.
  { subst o df. apply list_elem_of_lookup. exists 0%nat.
    vm_compute. reflexivity. }
  destruct (output_row_of_grid market_weekdays jan06 df ledger_one_buy o Ho)
    as (fr & Hfr & Hk & Hq & _).
  - eexists. split; [subst df; row 0%nat|reflexivity].
  - vm_compute. discriminate.
  - exists df, o, fr. split; [exact Hdf|]. split; [exact Ho|].
    split; [reflexivity|]. split; [exact Hfr|]. split; [exact Hk|exact Hq].
Defined.

Lemma before_first_transaction_witness :
  ∃ out o,
    run to_numeric_ex no_quote market_weekdays jan06 ledger_late_buy = Ok out ∧
    o ∈ out ∧ Hist.key o = ("X", jan02) ∧
    Hist.valuation o = Num 0 ∧ Hist.spending_stock o = NaN ∧
    Hist.invested_cash_stock o = NaN ∧ Hist.balance o = NaN ∧
    Hist.profit_rate o = NaN.
Proof.
  evar (out : list Hist.row).
  assert (run to_numeric_ex no_quote market_weekdays jan06 ledger_late_buy
            = Ok out) as Hout by (vm_compute; reflexivity).
  evar (o : Hist.row).
  assert (o ∈ out) as Ho by (subst o out; row 0%nat).
  exists out, o. split; [exact Hout|]. split; [exact Ho|].
  split; [reflexivity|].
  apply (before_first_transaction to_numeric_ex no_quote market_weekdays
           jan06 ledger_late_buy out o jan03 [qte 10; prc (SNum 5)] 6%Q
           Hout Ho).
  - eexists. split; vm_compute; reflexivity.
  - vm_compute. discriminate.
  - intros d' details' (txns & Ht & Hd).
    change (Hist.ticker o) with "X" in Ht.
    change (ledger_late_buy !! "X") with
      (Some ({[ jan03 := [qte 10; prc (SNum 5)] ]} : gmap Z (list item))) in Ht.
    injection Ht as <-. apply lookup_singleton_Some in Hd as [<- _].
    vm_compute. reflexivity.
  - reflexivity.
Defined.


Lemma invested_cash_never_decreases_witness :
  ∃ df r1 r2 a b,
    format_transactions to_numeric_ex no_quote ledger_buy_sell = Ok df ∧
    r1 ∈ df ∧ r2 ∈ df ∧ Df.key r1 = ("X", jan02) ∧
    Df.key r2 = ("X", jan03) ∧
    Df.invested_cash_stock r1 = Num a ∧
    Df.invested_cash_stock r2 = Num b ∧ (a <= b)%Q.
Proof.
  evar (df : list Df.row).
  assert (format_transactions to_numeric_ex no_quote ledger_buy_sell = Ok df)
    as Hdf by (vm_compute; reflexivity).
  evar (r1 : Df.row).
  assert (r1 ∈ df) as Hr1 by (subst r1 df; row 0%nat).
  evar (r2 : Df.row).
  assert (r2 ∈ df) as Hr2 by (subst r2 df; row 1%nat).
  destruct (invested_cash_never_decreases to_numeric_ex no_quote
              ledger_buy_sell df r1 r2 Hdf Hr1 Hr2) as (a & b & Ha & Hb & Hab).
  - reflexivity.
  - vm_compute. discriminate.
  - intros r' Hr' _ _. subst df.
    apply list_elem_of_lookup in Hr' as [i Hi].
    destruct i as [|[|i]]; simpl in Hi;
      [injection Hi as <-; vm_compute; discriminate..|discriminate Hi].
  - discriminate.
  - discriminate.
  - exists df, r1, r2, a, b. split; [exact Hdf|]. split; [exact Hr1|].
    split; [exact Hr2|]. do 2 (split; [reflexivity|]).
    split; [exact Ha|]. split; [exact Hb|exact Hab].
Defined.

Lemma ticker_rows_independent_witness :
  ∃ df1 df2,
    format_transactions to_numeric_ex no_quote ledger_one_buy = Ok df1 ∧
    format_transactions to_numeric_ex no_quote ledger_two_tickers = Ok df2 ∧
    length df1 = 1%nat ∧ length df2 = 2%nat ∧
    filter (λ r, Df.ticker r = "X") df1 = filter (λ r, Df.ticker r = "X") df2.
Proof.
  evar (df1 : list Df.row).
  assert (format_transactions to_numeric_ex no_quote ledger_one_buy = Ok df1)
    as Hdf1 by (vm_compute; reflexivity).
  evar (df2 : list Df.row).
  assert (format_transactions to_numeric_ex no_quote ledger_two_tickers
            = Ok df2) as Hdf2 by (vm_compute; reflexivity).
  exists df1, df2. split; [exact Hdf1|]. split; [exact Hdf2|].
  do 2 (split; [reflexivity|]).
  apply (ticker_rows_independent to_numeric_ex no_quote ledger_one_buy
           ledger_two_tickers df1 df2 "X"); [|exact Hdf1|exact Hdf2].
  vm_compute. reflexivity.
Defined.

Lemma money_stocks_constant_between_transactions_witness :
  ∃ df o1 o2,
    format_transactions to_numeric_ex no_quote ledger_one_buy = Ok df ∧
    o1 ∈ fetch_hist_data market_three_days jan06 df ledger_one_buy ∧
    o2 ∈ fetch_hist_data market_three_days jan06 df ledger_one_buy ∧
    Hist.key o1 = ("X", jan03) ∧ Hist.key o2 = ("X", jan06) ∧
    Hist.spending_stock o1 = Num 50 ∧
    Hist.spending_stock o1 = Hist.spending_stock o2 ∧
    Hist.invested_cash_stock o1 = Hist.invested_cash_stock o2.
Proof.
  evar (df : list Df.row).
  assert (format_transactions to_numeric_ex no_quote ledger_one_buy = Ok df)
    as Hdf by (vm_compute; reflexivity).
  evar (o1 : Hist.row).
  assert (o1 ∈ fetch_hist_data market_three_days jan06 df ledger_one_buy)
    as Ho1.
  { subst o1 df. apply list_elem_of_lookup. exists 1%nat.
    vm_compute. reflexivity. }
  evar (o2 : Hist.row).
  assert (o2 ∈ fetch_hist_data market_three_days jan06 df ledger_one_buy)
    as Ho2.
  { subst o2 df. apply list_elem_of_lookup. exists 2%nat.
    vm_compute. reflexivity. }
  exists df, o1, o2. split; [exact Hdf|]. split; [exact Ho1|].
  split; [exact Ho2|]. do 3 (split; [reflexivity|]).
  apply (money_stocks_constant_between_transactions market_three_days jan06
           df ledger_one_buy o1 o2 Ho1 Ho2).
  - reflexivity.
  - vm_compute. split; discriminate.
  - intros r Hr _ [Hlt _]. subst df.
    apply list_elem_of_lookup in Hr as [i Hi].
    destruct i as [|i]; simpl in Hi; [|discriminate Hi].
    injection Hi as <-. vm_compute in Hlt. discriminate Hlt.
  - discriminate.
  - discriminate.
Defined.
